(** * Agent-Orch UI: state synchronisation engine

    A shallow embedding of the client-side synchronisation code of the
    agent orchestration UI:

    - [services/api.ts]: the [AgentOrchestrationAPI] class (push-stream
      connection manager, position persistence, API/UI converters);
    - the [useAgentOrchestration] hook: the event reducer
      [handleWebSocketMessage] and the optimistic mutation callbacks
      ([createConnection], [deleteConnection], [deleteAgent], ...).

    JavaScript values are modelled by a JSON-like datatype, exceptions by
    a sum type, [localStorage] by a finite map, and the mutable fields of
    the service object and of the React state by explicit state passing. *)

From Stdlib Require Import ZArith DecimalString.
From stdpp Require Import gmap strings list fin_maps.

Set Warnings "-register-all".

Local Open Scope string_scope.
Local Open Scope list_scope.
Local Open Scope Z_scope.

(** ** JavaScript values, exceptions and property access *)

Module Js.

(** The values a parsed JSON message (or a synthetic event object) is
    made of.  Numbers are restricted to integers, on which the
    arithmetic used by the code (sums, products with the grid constants,
    absolute differences, comparisons) is exact.  An object is the list
    of its own properties; the first binding of a name is the one read. *)
Inductive value : Type :=
| VUndef
| VNull
| VBool (b : bool)
| VNum (n : Z)
| VStr (s : string)
| VArr (items : list value)
| VObj (props : list (string * value)).

(** What a [throw] carries: an [Error] instance (with its name and
    message) or any other value. *)
Inductive thrown : Type :=
| Exn (name message : string)
| NonError (v : value).

(** A computation that either completes with a value or throws. *)
Inductive result (A : Type) : Type :=
| Ok (a : A)
| Throw (e : thrown).
Arguments Ok {A} a.
Arguments Throw {A} e.

Definition bind {A B} (m : result A) (k : A -> result B) : result B :=
  match m with
  | Ok a => k a
  | Throw e => Throw e
  end.

(** [try { m } catch { h }] for a handler that does not need the error. *)
Definition try_catch {A} (m : result A) (h : thrown -> A) : A :=
  match m with
  | Ok a => a
  | Throw e => h e
  end.

(** [error instanceof Error ? error.message : fallback] *)
Definition message_or (e : thrown) (fallback : string) : string :=
  match e with
  | Exn _ m => m
  | NonError _ => fallback
  end.

Fixpoint assoc (k : string) (props : list (string * value)) : value :=
  match props with
  | [] => VUndef
  | (k', v) :: rest => if String.eqb k k' then v else assoc k rest
  end.

Definition type_error_read (of_ : string) (k : string) : thrown :=
  Exn "TypeError"
      ("Cannot read properties of " +:+ of_ +:+ " (reading '" +:+ k +:+ "')").

(** Property read [v.k] for the property names the code uses (none of
    them is an array index or a built-in such as [length]): reading
    from [undefined] or [null] throws a [TypeError]; reading from an
    object gives the property or [undefined]; reading from any other
    value gives [undefined]. *)
Definition get (v : value) (k : string) : result value :=
  match v with
  | VUndef => Throw (type_error_read "undefined" k)
  | VNull => Throw (type_error_read "null" k)
  | VObj props => Ok (assoc k props)
  | _ => Ok VUndef
  end.

(** Strict equality [===].  Two objects (or arrays) are equal only when
    they are the same reference; the operands compared by the code
    always come from different allocations (a freshly parsed message
    against the state, or against a literal), so they never are. *)
Definition strict_eq (a b : value) : bool :=
  match a, b with
  | VUndef, VUndef => true
  | VNull, VNull => true
  | VBool x, VBool y => Bool.eqb x y
  | VNum x, VNum y => Z.eqb x y
  | VStr x, VStr y => String.eqb x y
  | _, _ => false
  end.

(** Truthiness, as used by [||], [if] and [?.]. *)
Definition truthy (v : value) : bool :=
  match v with
  | VUndef | VNull => false
  | VBool b => b
  | VNum n => negb (Z.eqb n 0)
  | VStr s => negb (String.eqb s "")
  | VArr _ | VObj _ => true
  end.

(** [a || b] *)
Definition or_else (a b : value) : value := if truthy a then a else b.

(** Decimal notation, which is how an integer of magnitude below 10^21
    is printed. *)
Definition num_to_string (n : Z) : string :=
  NilZero.string_of_int (Z.to_int n).

Fixpoint join (sep : string) (parts : list string) : string :=
  match parts with
  | [] => ""
  | [p] => p
  | p :: rest => p +:+ sep +:+ join sep rest
  end.

(** String conversion, as performed by a template literal. *)
Fixpoint to_str (v : value) : string :=
  match v with
  | VUndef => "undefined"
  | VNull => "null"
  | VBool true => "true"
  | VBool false => "false"
  | VNum n => num_to_string n
  | VStr s => s
  | VArr items =>
      join ","
        (List.map (fun i => match i with
                            | VUndef | VNull => ""
                            | _ => to_str i
                            end) items)
  | VObj _ => "[object Object]"
  end.

(** Sequential [map] of a throwing callback that also receives the
    index, as [Array.prototype.map] passes it. *)
Fixpoint map_from {A B} (f : nat -> A -> result B) (i : nat) (l : list A)
  : result (list B) :=
  match l with
  | [] => Ok []
  | a :: rest =>
      bind (f i a) (fun b =>
      bind (map_from f (S i) rest) (fun bs => Ok (b :: bs)))
  end.

Definition map_indexed {A B} (f : nat -> A -> result B) (l : list A)
  : result (list B) := map_from f 0%nat l.

End Js.

Import Js.

Notation "'do' x <- m ; k" := (Js.bind m (fun x => k))
  (at level 10, x name, m at level 100, k at level 200).

(** ** UI data model ([types/index.ts]) *)

(** Fields that the converters copy from a server payload hold whatever
    value the payload had; [x], [y], [width], [height] are always
    numbers and [selected] a boolean. *)
Module Agent.
Record t : Type := mk {
  id : value;
  x : Z;
  y : Z;
  width : Z;
  height : Z;
  label : value;
  selected : bool;
  model : value;
  prompt : value;
  status : value;
  url : value;
  error : value
}.
End Agent.

(** [direction] is optional in the declaration; a relation on which it
    is absent has [undefined] there. *)
Module Connection.
Record t : Type := mk {
  id : value;
  fromAgent : value;
  fromHandle : value;
  toAgent : value;
  toHandle : value;
  direction : value
}.
End Connection.

(** ** Position persistence ([api.ts], lines 387-458) *)

(** A layout position [{x, y}]. *)
Record position : Type := Pos { pos_x : Z; pos_y : Z }.

(** What [JSON.parse] makes of a stored string: a value, or a
    [SyntaxError] (the empty string included). *)
Inductive item : Type :=
| Unparsable
| Json (v : value).

(** [localStorage]: string keys to stored strings, seen through
    [JSON.parse]. *)
Abbreviation storage := (gmap string item).

Definition position_key (agentId : value) : string :=
  "agent_position_" +:+ to_str agentId.

(** The validation shared by [getStoredPosition] and
    [getAllStoredPositions]: [typeof position.x === 'number' &&
    typeof position.y === 'number'], inside a [try] whose [catch]
    discards the entry. *)
Definition valid_position (it : item) : option position :=
  match it with
  | Unparsable => None
  | Json v =>
      try_catch
        (do px <- get v "x";
         match px with
         | VNum n =>
             do py <- get v "y";
             match py with
             | VNum m => Ok (Some (Pos n m))
             | _ => Ok None
             end
         | _ => Ok None
         end)
        (fun _ => None)
  end.

Definition getStoredPosition (ls : storage) (agentId : value)
  : option position :=
  match ls !! position_key agentId with
  | Some it => valid_position it
  | None => None
  end.

(** [storeAgentPosition]: [accepted] tells whether the store takes the
    write; a refused write raises inside [setItem] and is swallowed by
    the method's [catch]. *)
Definition storeAgentPosition (accepted : bool) (ls : storage)
    (agentId : string) (x y : Z) : storage :=
  if accepted
  then <[position_key (VStr agentId) :=
           Json (VObj [("x", VNum x); ("y", VNum y)])]> ls
  else ls.

Definition getAllStoredPositions (ls : storage) : list position :=
  omap (fun kv : string * item =>
          if String.prefix "agent_position_" kv.1
          then valid_position kv.2
          else None)
       (map_to_list ls).

Definition isOccupied (existingPositions : list position) (x y : Z) : bool :=
  existsb (fun pos => (Z.abs (pos_x pos - x) <? 50)
                      && (Z.abs (pos_y pos - y) <? 50))
          existingPositions.

Definition gridSize : Z := 200.

(** The inner loop [for (col...; col < 10; col++)], with [todo]
    iterations left. *)
Fixpoint scan_cols (existingPositions : list position) (row col : Z)
    (todo : nat) : option position :=
  match todo with
  | O => None
  | S todo' =>
      let x := col * gridSize + 100 in
      let y := row * gridSize + 100 in
      if isOccupied existingPositions x y
      then scan_cols existingPositions row (col + 1) todo'
      else Some (Pos x y)
  end.

(** The outer loop [for (row...; row < 10; row++)]. *)
Fixpoint scan_rows (existingPositions : list position) (row : Z)
    (todo : nat) : option position :=
  match todo with
  | O => None
  | S todo' =>
      match scan_cols existingPositions row 0 10 with
      | Some p => Some p
      | None => scan_rows existingPositions (row + 1) todo'
      end
  end.

Definition scan_grid (existingPositions : list position) : option position :=
  scan_rows existingPositions 0 10.

(** [generateDefaultPosition]: [random] is the position the fallback
    draws with [Math.random] when the grid is full. *)
Definition generateDefaultPosition (ls : storage) (random : position)
  : position :=
  match scan_grid (getAllStoredPositions ls) with
  | Some p => p
  | None => random
  end.

(** ** Converters between API and UI formats ([api.ts], lines 460-500) *)

(** [apiAgentToUIAgent]: the position comes from the store or, failing
    that, from [generateDefaultPosition]; nothing is written back. *)
Definition apiAgentToUIAgent (ls : storage) (random : position)
    (apiAgent : value) : result Agent.t :=
  do id <- get apiAgent "id";
  let position :=
    match getStoredPosition ls id with
    | Some p => p
    | None => generateDefaultPosition ls random
    end in
  do config <- get apiAgent "config";
  do name <- get config "name";
  do model <- get config "model";
  do prompt <- get config "prompt";
  do status <- get apiAgent "status";
  do url <- get apiAgent "url";
  do error_message <- get apiAgent "error_message";
  Ok {| Agent.id := id;
        Agent.x := pos_x position;
        Agent.y := pos_y position;
        Agent.width := 120;
        Agent.height := 80;
        Agent.label := name;
        Agent.selected := false;
        Agent.model := model;
        Agent.prompt := or_else prompt (VStr "");
        Agent.status := status;
        Agent.url := url;
        Agent.error := error_message |}.

Definition apiConnectionToUIConnection (apiConnection : value)
  : result Connection.t :=
  do id <- get apiConnection "id";
  do from_agent <- get apiConnection "from_agent";
  do from_handle <- get apiConnection "from_handle";
  do to_agent <- get apiConnection "to_agent";
  do to_handle <- get apiConnection "to_handle";
  Ok {| Connection.id := id;
        Connection.fromAgent := from_agent;
        Connection.fromHandle := from_handle;
        Connection.toAgent := to_agent;
        Connection.toHandle := to_handle;
        Connection.direction := VUndef |}.

(** ** Canonical state and the event reducer (hook, lines 5-157) *)

(** Whether the conversion of a value to a string raises.  An object
    is converted by calling its [toString]; an own property of that
    name shadows the inherited method and, holding parsed data, cannot
    be called, and the fallback [valueOf] returns the object itself:
    the conversion raises a [TypeError].  An array converts its
    elements in turn. *)
Fixpoint conversion_throws (v : value) : bool :=
  match v with
  | VObj props => existsb (fun kv => String.eqb kv.1 "toString") props
  | VArr items => existsb conversion_throws items
  | _ => false
  end.

(** A value interpolated in a template literal. *)
Definition interpolate (v : value) : result string :=
  if conversion_throws v
  then Throw (Exn "TypeError" "Cannot convert object to primitive value")
  else Ok (to_str v).

Record AgentOrchestrationState : Type := mkState {
  agents : list Agent.t;
  connections : list Connection.t;
  loading : bool;
  error : option string;
  connected : bool
}.

(** [v?.map(f) || []]: empty for a nullish [v], the mapped array for an
    array, and a [TypeError] for anything else (no [map] to call). *)
Definition optional_map {B} (f : nat -> value -> result B) (v : value)
  : result (list B) :=
  match v with
  | VUndef | VNull => Ok []
  | VArr items => map_indexed f items
  | _ => Throw (Exn "TypeError" "map is not a function")
  end.

(** The body of the [agent_updated] callback for one [agent] of the
    state, at index [i] of the array. *)
Definition update_one (ls : storage) (random : nat -> position)
    (data : value) (i : nat) (agent : Agent.t) : result Agent.t :=
  do payload <- get data "agent";
  do payload_id <- get payload "id";
  if strict_eq (Agent.id agent) payload_id
  then
    do updatedAgent <- apiAgentToUIAgent ls (random i) payload;
    Ok {| Agent.id := Agent.id updatedAgent;
          Agent.x := Agent.x agent;
          Agent.y := Agent.y agent;
          Agent.width := Agent.width updatedAgent;
          Agent.height := Agent.height updatedAgent;
          Agent.label := Agent.label updatedAgent;
          Agent.selected := Agent.selected agent;
          Agent.model := Agent.model updatedAgent;
          Agent.prompt := Agent.prompt updatedAgent;
          Agent.status := Agent.status updatedAgent;
          Agent.url := Agent.url updatedAgent;
          Agent.error := Agent.error updatedAgent |}
  else Ok agent.

(** The [switch (data.type)] inside the inner [try]: the next state, or
    the exception a case raises.  [ls] is the position store the
    converters read and [random i] the fallback position drawn for the
    element at index [i]. *)
Definition reduce (ls : storage) (random : nat -> position)
    (currentState : AgentOrchestrationState) (data : value)
  : result AgentOrchestrationState :=
  do type <- get data "type";
  match type with
  | VStr tag =>
      if String.eqb tag "initial_state" then
        do agents_v <- get data "agents";
        do initialAgents <-
          optional_map (fun i a => apiAgentToUIAgent ls (random i) a) agents_v;
        do connections_v <- get data "connections";
        do initialConnections <-
          optional_map (fun _ c => apiConnectionToUIConnection c)
                       connections_v;
        Ok {| agents := initialAgents;
              connections := initialConnections;
              loading := false;
              error := error currentState;
              connected := true |}
      else if String.eqb tag "agent_updated" then
        do agents' <-
          map_indexed (update_one ls random data) (agents currentState);
        Ok {| agents := agents';
              connections := connections currentState;
              loading := loading currentState;
              error := error currentState;
              connected := connected currentState |}
      else if String.eqb tag "agent_deleted" then
        do agent_id <- get data "agent_id";
        Ok {| agents :=
                List.filter
                  (fun agent => negb (strict_eq (Agent.id agent) agent_id))
                  (agents currentState);
              connections :=
                List.filter
                  (fun conn =>
                     negb (strict_eq (Connection.fromAgent conn) agent_id)
                     && negb (strict_eq (Connection.toAgent conn) agent_id))
                  (connections currentState);
              loading := loading currentState;
              error := error currentState;
              connected := connected currentState |}
      else if String.eqb tag "connection_added" then
        do connection <- get data "connection";
        do added <- apiConnectionToUIConnection connection;
        Ok {| agents := agents currentState;
              connections := connections currentState ++ [added];
              loading := loading currentState;
              error := error currentState;
              connected := connected currentState |}
      else if String.eqb tag "connection_removed" then
        do connection_id <- get data "connection_id";
        Ok {| agents := agents currentState;
              connections :=
                List.filter
                  (fun conn =>
                     negb (strict_eq (Connection.id conn) connection_id))
                  (connections currentState);
              loading := loading currentState;
              error := error currentState;
              connected := connected currentState |}
      else if String.eqb tag "connection_failed" then
        Ok {| agents := agents currentState;
              connections := connections currentState;
              loading := loading currentState;
              error := Some "Connection to orchestration layer failed";
              connected := false |}
      else if String.eqb tag "connection_error" then
        do err <- get data "error";
        do shown <- interpolate (or_else err (VStr "Connection failed"));
        Ok {| agents := agents currentState;
              connections := connections currentState;
              loading := loading currentState;
              error := Some ("WebSocket error: " +:+ shown);
              connected := false |}
      else if String.eqb tag "connection_established" then
        Ok {| agents := agents currentState;
              connections := connections currentState;
              loading := loading currentState;
              error := None;
              connected := true |}
      else Ok currentState
  | _ => Ok currentState
  end.

(** [handleWebSocketMessage]: the updater passed to [setState]; a fault
    in the dispatch is caught and the current state returned. *)
Definition handleWebSocketMessage (ls : storage) (random : nat -> position)
    (currentState : AgentOrchestrationState) (data : value)
  : AgentOrchestrationState :=
  try_catch (reduce ls random currentState data) (fun _ => currentState).

(** The event types the [switch] has a case for. *)
Definition handled_types : list string :=
  [ "initial_state"; "agent_updated"; "agent_deleted"; "connection_added";
    "connection_removed"; "connection_failed"; "connection_error";
    "connection_established" ].

(** ** Request/response mutations ([api.ts], lines 275-340) *)

(** How a [fetch] settles: rejected (a [TypeError] with an
    engine-chosen message) or resolved with a response whose [ok] flag
    is given. *)
Inductive fetch_outcome : Type :=
| NetworkFailure (message : string)
| Response (ok : bool).

(** The requests the hook sends through the service. *)
Inductive request : Type :=
| PostConnection (from_agent to_agent from_handle to_handle : string)
| DeleteConnection (connectionId : string)
| DeleteAgent (agentId : string).

Definition settle (net : fetch_outcome) (not_ok : string) : result unit :=
  match net with
  | NetworkFailure m => Throw (Exn "TypeError" m)
  | Response true => Ok tt
  | Response false => Throw (Exn "Error" not_ok)
  end.

Module AgentOrchestrationAPI.

Definition createConnection (net : fetch_outcome) : result unit :=
  settle net "Failed to create connection".

Definition deleteConnection (net : fetch_outcome) : result unit :=
  settle net "Failed to delete connection".

Definition deleteAgent (net : fetch_outcome) (agentId : string)
  : result unit :=
  settle net ("Failed to delete agent " +:+ agentId).

End AgentOrchestrationAPI.

(** ** Optimistic mutations of the hook (lines 195-212 and 265-350) *)

(** What the hook's callbacks act on: the React state, the requests
    sent so far and the browser's [localStorage]. *)
Record HookWorld : Type := mkWorld {
  state : AgentOrchestrationState;
  sent : list request;
  localStorage : storage
}.

(** How an [async] callback settles: resolved with a record or with
    [undefined] ([None]), or rejected. *)
Inductive completion : Type :=
| Resolved (r : option Connection.t)
| Rejected (e : thrown).

Definition setState (f : AgentOrchestrationState -> AgentOrchestrationState)
    (w : HookWorld) : HookWorld :=
  {| state := f (state w); sent := sent w; localStorage := localStorage w |}.

Definition send (r : request) (w : HookWorld) : HookWorld :=
  {| state := state w; sent := sent w ++ [r];
     localStorage := localStorage w |}.

Definition with_connections (cs : list Connection.t)
    (s : AgentOrchestrationState) : AgentOrchestrationState :=
  {| agents := agents s; connections := cs; loading := loading s;
     error := error s; connected := connected s |}.

Definition with_error (e : option string) (s : AgentOrchestrationState)
  : AgentOrchestrationState :=
  {| agents := agents s; connections := connections s;
     loading := loading s; error := e; connected := connected s |}.

(** The predicate of the duplicate pre-check. *)
Definition same_endpoints (fromAgent toAgent fromHandle toHandle : string)
    (conn : Connection.t) : bool :=
  strict_eq (Connection.fromAgent conn) (VStr fromAgent)
  && strict_eq (Connection.toAgent conn) (VStr toAgent)
  && strict_eq (Connection.fromHandle conn) (VStr fromHandle)
  && strict_eq (Connection.toHandle conn) (VStr toHandle).

Definition has_id (id : string) (conn : Connection.t) : bool :=
  strict_eq (Connection.id conn) (VStr id).

Definition without_id (id : string) (cs : list Connection.t)
  : list Connection.t :=
  List.filter (fun conn => negb (has_id id conn)) cs.

(** [createConnection].  [rendered] is [state.connections] as captured
    by the callback, [tempConnectionId] the identifier built from the
    clock and [Math.random], [net] how the request settles. *)
Definition createConnection (rendered : list Connection.t)
    (tempConnectionId : string) (net : fetch_outcome)
    (fromAgent toAgent fromHandle toHandle : string) (w : HookWorld)
  : HookWorld * completion :=
  match List.find (same_endpoints fromAgent toAgent fromHandle toHandle)
                  rendered with
  | Some existingConnection => (w, Resolved None)
  | None =>
      let optimisticConnection :=
        {| Connection.id := VStr tempConnectionId;
           Connection.fromAgent := VStr fromAgent;
           Connection.fromHandle := VStr fromHandle;
           Connection.toAgent := VStr toAgent;
           Connection.toHandle := VStr toHandle;
           Connection.direction := VUndef |} in
      let w1 :=
        setState (fun prev =>
                    with_connections
                      (connections prev ++ [optimisticConnection]) prev) w in
      let w2 :=
        send (PostConnection fromAgent toAgent fromHandle toHandle) w1 in
      match AgentOrchestrationAPI.createConnection net with
      | Ok _ =>
          (setState (fun prev =>
                       with_connections
                         (without_id tempConnectionId (connections prev))
                         prev) w2,
           Resolved None)
      | Throw e =>
          (setState (fun prev =>
                       with_error
                         (Some (message_or e "Failed to create connection"))
                         (with_connections
                            (without_id tempConnectionId (connections prev))
                            prev)) w2,
           Rejected e)
      end
  end.

(** [deleteConnection], with the same conventions. *)
Definition deleteConnection (rendered : list Connection.t)
    (net : fetch_outcome) (connectionId : string) (w : HookWorld)
  : HookWorld * completion :=
  match List.find (has_id connectionId) rendered with
  | None => (w, Resolved None)
  | Some connectionToDelete =>
      let w1 :=
        setState (fun prev =>
                    with_connections
                      (without_id connectionId (connections prev)) prev) w in
      let w2 := send (DeleteConnection connectionId) w1 in
      match AgentOrchestrationAPI.deleteConnection net with
      | Ok _ => (w2, Resolved None)
      | Throw e =>
          (setState (fun prev =>
                       with_error
                         (Some (message_or e "Failed to delete connection"))
                         (with_connections
                            (connections prev ++ [connectionToDelete])
                            prev)) w2,
           Rejected e)
      end
  end.

(** [deleteAgent], given what the identifier [setAgentPositions]
    resolves to in the hook's scope: a function run on the agent id, or
    nothing, in which case evaluating the call raises a
    [ReferenceError] inside the [try]. *)
Definition deleteAgent_with
    (setAgentPositions : option (string -> HookWorld -> HookWorld))
    (net : fetch_outcome) (agentId : string) (w : HookWorld)
  : HookWorld * completion :=
  let w1 := send (DeleteAgent agentId) w in
  let attempt : HookWorld * result unit :=
    match AgentOrchestrationAPI.deleteAgent net agentId with
    | Throw e => (w1, Throw e)
    | Ok _ =>
        match setAgentPositions with
        | Some remove => (remove agentId w1, Ok tt)
        | None =>
            (w1, Throw (Exn "ReferenceError"
                            "setAgentPositions is not defined"))
        end
    end in
  match attempt.2 with
  | Ok _ => (attempt.1, Resolved None)
  | Throw e =>
      (setState (with_error (Some (message_or e "Failed to delete agent")))
                attempt.1,
       Rejected e)
  end.

(** The hook neither imports nor declares [setAgentPositions]: its
    bindings are the React imports, [apiService], [state], [setState],
    [stateRef] and the callbacks it defines. *)
Definition deleteAgent : fetch_outcome -> string -> HookWorld
                         -> HookWorld * completion :=
  deleteAgent_with None.

(** [updateAgentPosition]: persist, then move the entity in the state. *)
Definition updateAgentPosition (accepted : bool) (agentId : string)
    (x y : Z) (w : HookWorld) : HookWorld :=
  {| state :=
       {| agents :=
            List.map
              (fun agent =>
                 if strict_eq (Agent.id agent) (VStr agentId)
                 then {| Agent.id := Agent.id agent;
                         Agent.x := x;
                         Agent.y := y;
                         Agent.width := Agent.width agent;
                         Agent.height := Agent.height agent;
                         Agent.label := Agent.label agent;
                         Agent.selected := Agent.selected agent;
                         Agent.model := Agent.model agent;
                         Agent.prompt := Agent.prompt agent;
                         Agent.status := Agent.status agent;
                         Agent.url := Agent.url agent;
                         Agent.error := Agent.error agent |}
                 else agent)
              (agents (state w));
          connections := connections (state w);
          loading := loading (state w);
          error := error (state w);
          connected := connected (state w) |};
     sent := sent w;
     localStorage := storeAgentPosition accepted (localStorage w) agentId x y |}.

(** ** Connection manager ([api.ts], lines 49-198) *)

Inductive readyState : Type := CONNECTING | OPEN | CLOSING | CLOSED.

(** What a pending timer does when it fires: the reconnect closure
    scheduled by [onclose] (with the delay and the callback it
    captured), or the heartbeat interval that [heartbeatInterval] is
    declared for.  The class has no code for the body of the latter. *)
Inductive timer_action : Type :=
| Reconnect (delay : Z) (callback : nat)
| Heartbeat.

(** The part of the browser the service acts on.  Sockets and observer
    callbacks are identified by numbers, timers by their (positive)
    handles.  [closes] logs the calls of [close] with their arguments,
    [delivered] the calls [cb(event)] made on observers. *)
Record Browser : Type := mkBrowser {
  sockets : gmap nat (readyState * nat);
  timers : gmap positive timer_action;
  closes : list (nat * option (Z * string));
  delivered : list (nat * value)
}.

(** The private fields of [AgentOrchestrationAPI]. *)
Record Service : Type := mkService {
  ws : option nat;
  wsCallbacks : list nat;
  reconnectAttempts : Z;
  maxReconnectAttempts : Z;
  reconnectTimeout : option positive;
  isReconnecting : bool;
  connectionCleanup : bool;
  heartbeatInterval : option positive
}.

(** The field initialisers of the class. *)
Definition new_service : Service :=
  {| ws := None; wsCallbacks := []; reconnectAttempts := 0;
     maxReconnectAttempts := 5; reconnectTimeout := None;
     isReconnecting := false; connectionCleanup := false;
     heartbeatInterval := None |}.

Definition connection_established : value :=
  VObj [("type", VStr "connection_established");
        ("status", VStr "connected")].

Definition connection_failed : value :=
  VObj [("type", VStr "connection_failed")].

(** [this.wsCallbacks.forEach(cb => cb(event))], for observers that
    return normally (the hook's handler catches its own faults). *)
Definition fan_out (event : value) (callbacks : list nat) (b : Browser)
  : Browser :=
  {| sockets := sockets b; timers := timers b; closes := closes b;
     delivered := delivered b ++ List.map (fun cb => (cb, event)) callbacks |}.

(** [if (!this.wsCallbacks.includes(callback)) this.wsCallbacks.push(callback)] *)
Definition add_callback (callback : nat) (callbacks : list nat) : list nat :=
  if existsb (Nat.eqb callback) callbacks
  then callbacks
  else callbacks ++ [callback].

Definition close_socket (h : nat) (args : option (Z * string)) (b : Browser)
  : Browser :=
  {| sockets :=
       alter (fun sk => match sk.1 with
                        | CLOSED => sk
                        | _ => (CLOSING, sk.2)
                        end) h (sockets b);
     timers := timers b;
     closes := closes b ++ [(h, args)];
     delivered := delivered b |}.

Definition is_open (s : Service) (b : Browser) : bool :=
  match ws s with
  | Some h => match sockets b !! h with
              | Some (OPEN, _) => true
              | _ => false
              end
  | None => false
  end.

Definition set_callbacks (cbs : list nat) (s : Service) : Service :=
  {| ws := ws s; wsCallbacks := cbs;
     reconnectAttempts := reconnectAttempts s;
     maxReconnectAttempts := maxReconnectAttempts s;
     reconnectTimeout := reconnectTimeout s;
     isReconnecting := isReconnecting s;
     connectionCleanup := connectionCleanup s;
     heartbeatInterval := heartbeatInterval s |}.

(** [connectWebSocket(callback)] *)
Definition connectWebSocket (callback : nat) (sb : Service * Browser)
  : Service * Browser :=
  let '(s, b) := sb in
  if is_open s b || isReconnecting s
  then (set_callbacks (add_callback callback (wsCallbacks s)) s, b)
  else
    let b1 := match ws s with
              | Some old => close_socket old None b
              | None => b
              end in
    let h := fresh (dom (sockets b1)) in
    ({| ws := Some h;
        wsCallbacks := add_callback callback (wsCallbacks s);
        reconnectAttempts := reconnectAttempts s;
        maxReconnectAttempts := maxReconnectAttempts s;
        reconnectTimeout := reconnectTimeout s;
        isReconnecting := true;
        connectionCleanup := connectionCleanup s;
        heartbeatInterval := heartbeatInterval s |},
     {| sockets := <[h := (CONNECTING, callback)]> (sockets b1);
        timers := timers b1; closes := closes b1;
        delivered := delivered b1 |}).

(** The [onopen] handler, given what [this.startHeartbeat] resolves to:
    a method, or nothing, in which case the call raises a [TypeError]
    and the handler stops there.  The assignments made before the call
    stay. *)
Definition ws_onopen_with
    (startHeartbeat : option (Service * Browser -> Service * Browser))
    (sb : Service * Browser) : Service * Browser * option thrown :=
  let '(s, b) := sb in
  let s1 :=
    {| ws := ws s; wsCallbacks := wsCallbacks s;
       reconnectAttempts := 0;
       maxReconnectAttempts := maxReconnectAttempts s;
       reconnectTimeout := reconnectTimeout s;
       isReconnecting := false;
       connectionCleanup := connectionCleanup s;
       heartbeatInterval := heartbeatInterval s |} in
  match startHeartbeat with
  | None =>
      (s1, b, Some (Exn "TypeError" "this.startHeartbeat is not a function"))
  | Some start =>
      let '(s2, b2) := start (s1, b) in
      (s2, fan_out connection_established (wsCallbacks s2) b2, None)
  end.

(** The class body declares the field [heartbeatInterval] and the
    methods from [connectWebSocket] to [uiConnectionToApiConnection];
    it has no member [startHeartbeat]. *)
Definition ws_onopen : Service * Browser -> Service * Browser * option thrown :=
  ws_onopen_with None.

(** The [onclose] handler of the socket whose handlers captured
    [callback]. *)
Definition ws_onclose (callback : nat) (sb : Service * Browser)
  : Service * Browser :=
  let '(s, b) := sb in
  let s1 :=
    {| ws := ws s; wsCallbacks := wsCallbacks s;
       reconnectAttempts := reconnectAttempts s;
       maxReconnectAttempts := maxReconnectAttempts s;
       reconnectTimeout := reconnectTimeout s;
       isReconnecting := false;
       connectionCleanup := connectionCleanup s;
       heartbeatInterval := heartbeatInterval s |} in
  if connectionCleanup s1 || (length (wsCallbacks s1) =? 0)%nat
  then (s1, b)
  else if reconnectAttempts s1 <? maxReconnectAttempts s1
  then
    let delay := Z.min (3000 * 2 ^ reconnectAttempts s1) 30000 in
    let t := fresh (dom (timers b)) in
    ({| ws := ws s1; wsCallbacks := wsCallbacks s1;
        reconnectAttempts := reconnectAttempts s1;
        maxReconnectAttempts := maxReconnectAttempts s1;
        reconnectTimeout := Some t;
        isReconnecting := isReconnecting s1;
        connectionCleanup := connectionCleanup s1;
        heartbeatInterval := heartbeatInterval s1 |},
     {| sockets := sockets b;
        timers := <[t := Reconnect delay callback]> (timers b);
        closes := closes b; delivered := delivered b |})
  else (s1, fan_out connection_failed (wsCallbacks s1) b).

(** [disconnectWebSocket()] *)
Definition disconnectWebSocket (sb : Service * Browser) : Service * Browser :=
  let '(s, b) := sb in
  let b1 := match reconnectTimeout s with
            | Some t =>
                {| sockets := sockets b; timers := delete t (timers b);
                   closes := closes b; delivered := delivered b |}
            | None => b
            end in
  let b2 := match ws s with
            | Some h => close_socket h (Some (1000, "Deliberate disconnect")) b1
            | None => b1
            end in
  ({| ws := None; wsCallbacks := [];
      reconnectAttempts := 0;
      maxReconnectAttempts := maxReconnectAttempts s;
      reconnectTimeout := None;
      isReconnecting := false;
      connectionCleanup := false;
      heartbeatInterval := heartbeatInterval s |},
   b2).

(** [removeWebSocketCallback(callback)] *)
Definition removeWebSocketCallback (callback : nat) (sb : Service * Browser)
  : Service * Browser :=
  let '(s, b) := sb in
  let s1 :=
    set_callbacks
      (List.filter (fun cb => negb (Nat.eqb cb callback)) (wsCallbacks s)) s in
  if (length (wsCallbacks s1) =? 0)%nat
  then disconnectWebSocket (s1, b)
  else (s1, b).

(** A pending timer that still exists when its time comes runs its
    action: the reconnect closure increments the attempt counter and
    calls [connectWebSocket] with the callback it captured; a heartbeat
    tick, having no body in the class, changes nothing. *)
Definition fire_timer (t : positive) (sb : Service * Browser)
  : Service * Browser :=
  let '(s, b) := sb in
  match timers b !! t with
  | Some (Reconnect _ callback) =>
      connectWebSocket callback
        ({| ws := ws s; wsCallbacks := wsCallbacks s;
            reconnectAttempts := reconnectAttempts s + 1;
            maxReconnectAttempts := maxReconnectAttempts s;
            reconnectTimeout := reconnectTimeout s;
            isReconnecting := isReconnecting s;
            connectionCleanup := connectionCleanup s;
            heartbeatInterval := heartbeatInterval s |},
         {| sockets := sockets b; timers := delete t (timers b);
            closes := closes b; delivered := delivered b |})
  | Some Heartbeat => (s, b)
  | None => (s, b)
  end.

(** The browser closes socket [h]: its state becomes [CLOSED] and its
    [onclose] handler runs. *)
Definition socket_closed (h : nat) (sb : Service * Browser)
  : Service * Browser :=
  let '(s, b) := sb in
  match sockets b !! h with
  | Some (_, callback) =>
      ws_onclose callback
        (s, {| sockets := <[h := (CLOSED, callback)]> (sockets b);
               timers := timers b; closes := closes b;
               delivered := delivered b |})
  | None => (s, b)
  end.

(** ** Auxiliary definitions used in the statements *)

(** [v.k] when the read does not throw, [undefined] otherwise. *)
Definition field (v : value) (k : string) : value :=
  match get v k with
  | Ok x => x
  | Throw _ => VUndef
  end.

Definition nullish (v : value) : bool :=
  match v with
  | VUndef | VNull => true
  | _ => false
  end.

(** An event the [switch] has no case for: its [type] is not one of the
    handled strings (absent, not a string, or another string). *)
Definition unhandled (data : value) : Prop :=
  forall tag, get data "type" = Ok (VStr tag) -> ~ In tag handled_types.

(** Sample data used by the closed instances below. *)
Definition no_store : storage := ∅.
Definition origin : nat -> position := fun _ => Pos 0 0.

Definition sample_agent (id : string) (x y : Z) (selected : bool) : Agent.t :=
  {| Agent.id := VStr id; Agent.x := x; Agent.y := y;
     Agent.width := 120; Agent.height := 80; Agent.label := VStr id;
     Agent.selected := selected; Agent.model := VStr "gpt-4";
     Agent.prompt := VStr ""; Agent.status := VStr "stopped";
     Agent.url := VUndef; Agent.error := VUndef |}.

Definition sample_connection (id from to : string) : Connection.t :=
  {| Connection.id := VStr id;
     Connection.fromAgent := VStr from; Connection.fromHandle := VStr "right";
     Connection.toAgent := VStr to; Connection.toHandle := VStr "left";
     Connection.direction := VUndef |}.

Definition api_connection (id from to : string) : value :=
  VObj [("id", VStr id); ("from_agent", VStr from); ("to_agent", VStr to);
        ("from_handle", VStr "right"); ("to_handle", VStr "left");
        ("enabled", VBool true)].

Definition api_agent (id name status : string) : value :=
  VObj [("id", VStr id);
        ("config", VObj [("id", VStr id); ("name", VStr name);
                         ("type", VStr "chat"); ("port", VNum 9001);
                         ("model", VStr "gpt-4o");
                         ("openai_api_key", VStr "k")]);
        ("status", VStr status)].

Definition sample_state : AgentOrchestrationState :=
  {| agents := [sample_agent "a1" 40 60 true; sample_agent "a2" 300 100 false];
     connections := [sample_connection "r1" "a1" "a2";
                     sample_connection "r2" "a2" "a3"];
     loading := false; error := None; connected := true |}.

(** What an [agent_updated] event with payload [p] makes of one entity
    of the state: an entity whose id is the payload's takes the server
    fields of the payload and keeps its position and selection; any
    other entity is left as it is. *)
Definition merge_server_fields (p : value) (agent : Agent.t) : Agent.t :=
  if strict_eq (Agent.id agent) (field p "id")
  then {| Agent.id := field p "id";
          Agent.x := Agent.x agent;
          Agent.y := Agent.y agent;
          Agent.width := 120;
          Agent.height := 80;
          Agent.label := field (field p "config") "name";
          Agent.selected := Agent.selected agent;
          Agent.model := field (field p "config") "model";
          Agent.prompt := or_else (field (field p "config") "prompt") (VStr "");
          Agent.status := field p "status";
          Agent.url := field p "url";
          Agent.error := field p "error_message" |}
  else agent.

(** Number of relations of a list on a given four-tuple. *)
Definition count_endpoints (a b h1 h2 : string) (cs : list Connection.t)
  : nat :=
  length (List.filter (same_endpoints a b h1 h2) cs).

Definition sample_world : HookWorld :=
  {| state := sample_state; sent := []; localStorage := no_store |}.

Definition empty_world : HookWorld :=
  {| state := {| agents := []; connections := []; loading := false;
                 error := None; connected := true |};
     sent := []; localStorage := no_store |}.

Definition world_with_position : HookWorld :=
  {| state := sample_state; sent := [];
     localStorage := storeAgentPosition true no_store "a1" 40 60 |}.

Definition apart (p q : position) : Prop :=
  50 <= Z.abs (pos_x q - pos_x p) \/ 50 <= Z.abs (pos_y q - pos_y p).

(** The entity that [apiAgentToUIAgent] makes of
    [api_agent id name "running"] at position (x, y). *)
Definition ui_agent (id name : string) (x y : Z) : Agent.t :=
  {| Agent.id := VStr id; Agent.x := x; Agent.y := y;
     Agent.width := 120; Agent.height := 80; Agent.label := VStr name;
     Agent.selected := false; Agent.model := VStr "gpt-4o";
     Agent.prompt := VStr ""; Agent.status := VStr "running";
     Agent.url := VUndef; Agent.error := VUndef |}.

Definition two_observers : Service :=
  {| ws := Some 0%nat; wsCallbacks := [1%nat; 2%nat];
     reconnectAttempts := 2; maxReconnectAttempts := 5;
     reconnectTimeout := None; isReconnecting := true;
     connectionCleanup := false; heartbeatInterval := None |}.

Definition open_socket : Browser :=
  {| sockets := {[ 0%nat := (OPEN, 1%nat) ]}; timers := ∅;
     closes := []; delivered := [] |}.

Definition last_observer : Service :=
  {| ws := Some 0%nat; wsCallbacks := [1%nat];
     reconnectAttempts := 1; maxReconnectAttempts := 5;
     reconnectTimeout := Some 3%positive; isReconnecting := false;
     connectionCleanup := false; heartbeatInterval := Some 7%positive |}.

Definition pending_timers : Browser :=
  {| sockets := {[ 0%nat := (CLOSED, 1%nat) ]};
     timers := {[ 3%positive := Reconnect 6000 1%nat;
                  7%positive := Heartbeat ]};
     closes := []; delivered := [] |}.

Definition no_browser : Browser :=
  {| sockets := ∅; timers := ∅; closes := []; delivered := [] |}.

(** Two subscriptions while the server is unreachable, then both
    observers leave: observer 1 connects and its socket (0) is closed;
    observer 2 connects before the reconnect timer is due, and the new
    socket (1) is closed as well; then both observers are removed. *)
Definition both_sockets_closed : Service * Browser :=
  socket_closed 1%nat
    (connectWebSocket 2%nat
       (socket_closed 0%nat
          (connectWebSocket 1%nat (new_service, no_browser)))).

Definition both_observers_removed : Service * Browser :=
  removeWebSocketCallback 2%nat
    (removeWebSocketCallback 1%nat both_sockets_closed).

(** ** Further code of the service and of the hook *)

(** [uiConnectionToApiConnection] ([api.ts], lines 491-500) *)
Definition uiConnectionToApiConnection (uiConnection : Connection.t) : value :=
  VObj [("id", Connection.id uiConnection);
        ("from_agent", Connection.fromAgent uiConnection);
        ("to_agent", Connection.toAgent uiConnection);
        ("from_handle", Connection.fromHandle uiConnection);
        ("to_handle", Connection.toHandle uiConnection);
        ("enabled", VBool true)].

(** How a request that reads the response settles: the [fetch] is
    rejected, or it resolves with a response of which the code reads
    the [ok] flag and then the body, through [response.text()] or
    through [response.json()], either of which may itself be
    rejected. *)
Inductive fetch_reply : Type :=
| Unreachable (message : string)
| Replied (ok : bool) (text : result string) (json : result value).

(** How an [async] callback that returns a value settles. *)
Inductive settled (A : Type) : Type :=
| Fulfilled (a : A)
| Failed (e : thrown).
Arguments Fulfilled {A} a.
Arguments Failed {A} e.

Module ApiService.

(** [createAgent] ([api.ts], lines 201-216) *)
Definition createAgent (reply : fetch_reply) : result value :=
  match reply with
  | Unreachable m => Throw (Exn "TypeError" m)
  | Replied false (Ok text) _ =>
      Throw (Exn "Error" ("Failed to create agent: " +:+ text))
  | Replied false (Throw e) _ => Throw e
  | Replied true _ json => json
  end.

(** [listAgents] ([api.ts], lines 218-226) *)
Definition listAgents (reply : fetch_reply) : result value :=
  match reply with
  | Unreachable m => Throw (Exn "TypeError" m)
  | Replied false _ _ => Throw (Exn "Error" "Failed to fetch agents")
  | Replied true _ json => json
  end.

(** [listConnections] ([api.ts], lines 322-330) *)
Definition listConnections (reply : fetch_reply) : result value :=
  match reply with
  | Unreachable m => Throw (Exn "TypeError" m)
  | Replied false _ _ => Throw (Exn "Error" "Failed to fetch connections")
  | Replied true _ json => json
  end.

End ApiService.

(** [v.map(f)] on a value that need not be an array, [name] being the
    variable that holds it: reading [map] from a nullish value throws,
    and so does calling what any other non-array value has under that
    name. *)
Definition array_map {B} (name : string) (f : nat -> value -> result B)
    (v : value) : result (list B) :=
  match v with
  | VArr items => map_indexed f items
  | VUndef => Throw (type_error_read "undefined" "map")
  | VNull => Throw (type_error_read "null" "map")
  | _ => Throw (Exn "TypeError" (name +:+ ".map is not a function"))
  end.

(** [apiService.apiAgentToUIAgent] passed as a bare function to [map]:
    the method runs with [this] undefined (class bodies are strict
    code), and its first step, the read of [this.getStoredPosition],
    throws before the argument is looked at. *)
Definition apiAgentToUIAgent_detached (apiAgent : value) : result Agent.t :=
  Throw (type_error_read "undefined" "getStoredPosition").

Definition with_agents (l : list Agent.t) (s : AgentOrchestrationState)
  : AgentOrchestrationState :=
  {| agents := l; connections := connections s; loading := loading s;
     error := error s; connected := connected s |}.

(** [Promise.all] of two requests: rejected with the rejection that
    comes first in time ([first_wins] says it is the first one's when
    both are rejected), fulfilled with both values otherwise. *)
Definition promise_all {A B} (first_wins : bool) (a : result A)
    (b : result B) : result (A * B) :=
  match a, b with
  | Ok x, Ok y => Ok (x, y)
  | Throw e, Ok _ => Throw e
  | Ok _, Throw e => Throw e
  | Throw e1, Throw e2 => Throw (if first_wins then e1 else e2)
  end.

(** [loadData] (hook, lines 27-54) *)
Definition loadData (first_wins : bool)
    (agentsReply connectionsReply : fetch_reply)
    (s : AgentOrchestrationState) : AgentOrchestrationState :=
  let s1 :=
    {| agents := agents s; connections := connections s;
       loading := true; error := None; connected := connected s |} in
  try_catch
    (do both <- promise_all first_wins
                  (ApiService.listAgents agentsReply)
                  (ApiService.listConnections connectionsReply);
     do uiAgents <-
       array_map "agents" (fun _ a => apiAgentToUIAgent_detached a) both.1;
     do uiConnections <-
       array_map "connections" (fun _ c => apiConnectionToUIConnection c)
                 both.2;
     Ok {| agents := uiAgents; connections := uiConnections;
           loading := false; error := error s1;
           connected := connected s1 |})
    (fun e =>
       {| agents := agents s1; connections := connections s1;
          loading := false;
          error := Some (message_or e "Failed to load data");
          connected := connected s1 |}).

(** [createAgent] of the hook (lines 174-193): the request, the
    conversion of the reply and the append are inside one [try]. *)
Definition createAgent (random : position) (reply : fetch_reply)
    (w : HookWorld) : HookWorld * settled Agent.t :=
  match (do apiAgent <- ApiService.createAgent reply;
         apiAgentToUIAgent (localStorage w) random apiAgent) with
  | Ok newAgent =>
      (setState (fun prev => with_agents (agents prev ++ [newAgent]) prev) w,
       Fulfilled newAgent)
  | Throw e =>
      (setState (with_error (Some (message_or e "Failed to create agent"))) w,
       Failed e)
  end.

(** [selectAgent] (hook, lines 381-389); [agentId] is a string or
    [null]. *)
Definition selectAgent (agentId : value) (s : AgentOrchestrationState)
  : AgentOrchestrationState :=
  with_agents
    (List.map
       (fun agent =>
          {| Agent.id := Agent.id agent;
             Agent.x := Agent.x agent;
             Agent.y := Agent.y agent;
             Agent.width := Agent.width agent;
             Agent.height := Agent.height agent;
             Agent.label := Agent.label agent;
             Agent.selected := strict_eq (Agent.id agent) agentId;
             Agent.model := Agent.model agent;
             Agent.prompt := Agent.prompt agent;
             Agent.status := Agent.status agent;
             Agent.url := Agent.url agent;
             Agent.error := Agent.error agent |})
       (agents s))
    s.

(** The part of [createConnection] that runs before the [await]: the
    pre-check, the optimistic append and the request.  [None] when the
    pre-check returns. *)
Definition createConnection_begin (rendered : list Connection.t)
    (tempConnectionId : string)
    (fromAgent toAgent fromHandle toHandle : string) (w : HookWorld)
  : option HookWorld :=
  match List.find (same_endpoints fromAgent toAgent fromHandle toHandle)
                  rendered with
  | Some _ => None
  | None =>
      Some
        (send (PostConnection fromAgent toAgent fromHandle toHandle)
           (setState
              (fun prev =>
                 with_connections
                   (connections prev
                    ++ [ {| Connection.id := VStr tempConnectionId;
                            Connection.fromAgent := VStr fromAgent;
                            Connection.fromHandle := VStr fromHandle;
                            Connection.toAgent := VStr toAgent;
                            Connection.toHandle := VStr toHandle;
                            Connection.direction := VUndef |} ])
                   prev) w))
  end.

(** The part of [createConnection] that runs when the request has
    settled, on the world as it is then. *)
Definition createConnection_settle (tempConnectionId : string)
    (net : fetch_outcome) (w : HookWorld) : HookWorld * completion :=
  match AgentOrchestrationAPI.createConnection net with
  | Ok _ =>
      (setState (fun prev =>
                   with_connections
                     (without_id tempConnectionId (connections prev)) prev) w,
       Resolved None)
  | Throw e =>
      (setState (fun prev =>
                   with_error
                     (Some (message_or e "Failed to create connection"))
                     (with_connections
                        (without_id tempConnectionId (connections prev))
                        prev)) w,
       Rejected e)
  end.





(** The entities (or relations) that [v?.map(f) || []] yields for the
    snapshot field [v]: none when the field is absent or [null], and
    otherwise, the field being an array, one per element, in order,
    each the conversion of its element. *)
Definition converted_from {B} (f : nat -> value -> result B) (v : value)
    (l : list B) : Prop :=
  match v with
  | VUndef | VNull => l = []
  | VArr items =>
      length l = length items
      /\ forall k item, items !! k = Some item ->
           exists y, l !! k = Some y /\ f k item = Ok y
  | _ => False
  end.

(** A stream event handled by the hook while a request is in flight. *)
Definition deliver (random : nat -> position) (data : value) (w : HookWorld)
  : HookWorld :=
  setState (fun prev => handleWebSocketMessage (localStorage w) random prev data)
           w.

(** The delay [onclose] computes for a given attempt counter. *)
Definition backoff_delay (attempts : Z) : Z :=
  Z.min (3000 * 2 ^ attempts) 30000.

(** The [onerror] handler. *)
Definition ws_onerror (sb : Service * Browser) : Service * Browser :=
  let '(s, b) := sb in
  ({| ws := ws s; wsCallbacks := wsCallbacks s;
      reconnectAttempts := reconnectAttempts s;
      maxReconnectAttempts := maxReconnectAttempts s;
      reconnectTimeout := reconnectTimeout s;
      isReconnecting := false;
      connectionCleanup := connectionCleanup s;
      heartbeatInterval := heartbeatInterval s |}, b).

(** The centre of the grid cell in column [col] of row [row]. *)
Definition cell_centre (row col : Z) : position :=
  Pos (col * gridSize + 100) (row * gridSize + 100).

(** [pos] is within the separation threshold of [p] in both axes. *)
Definition near (p pos : position) : bool :=
  (Z.abs (pos_x pos - pos_x p) <? 50) && (Z.abs (pos_y pos - pos_y p) <? 50).

(** * Properties *)

(** ** Values *)

Lemma strict_eq_str (v : value) (s : string) :
  strict_eq v (VStr s) = true <-> v = VStr s.
Proof.
  destruct v; simpl; try (split; [discriminate | congruence]).
  rewrite String.eqb_eq. split; congruence.
Qed.

Lemma strict_neq_str (v : value) (s : string) :
  negb (strict_eq v (VStr s)) = true <-> v <> VStr s.
Proof.
  rewrite negb_true_iff, <- not_true_iff_false, strict_eq_str. tauto.
Qed.

Lemma get_field (v : value) (k : string) :
  nullish v = false -> get v k = Ok (field v k).
Proof. unfold field. destruct v; simpl; intros; congruence. Qed.

Lemma get_nullish (v : value) (k : string) :
  nullish v = true -> exists e, get v k = Throw e.
Proof. destruct v; simpl; intros; try discriminate; eauto. Qed.

Lemma get_ok_not_nullish (v x : value) (k : string) :
  get v k = Ok x -> nullish v = false.
Proof. destruct v; simpl; intros; congruence. Qed.

(** ** The reducer, case by case *)

Section Reducer.

Variable ls : storage.
Variable random : nat -> position.
Variable currentState : AgentOrchestrationState.

Lemma reduce_agent_deleted (data agent_id : value) :
  get data "type" = Ok (VStr "agent_deleted") ->
  get data "agent_id" = Ok agent_id ->
  reduce ls random currentState data =
  Ok {| agents :=
          List.filter
            (fun agent => negb (strict_eq (Agent.id agent) agent_id))
            (agents currentState);
        connections :=
          List.filter
            (fun conn =>
               negb (strict_eq (Connection.fromAgent conn) agent_id)
               && negb (strict_eq (Connection.toAgent conn) agent_id))
            (connections currentState);
        loading := loading currentState;
        error := error currentState;
        connected := connected currentState |}.
Proof.
  intros Ht Hid. unfold reduce. rewrite Ht. simpl. rewrite Hid. reflexivity.
Qed.

Lemma reduce_connection_added (data payload : value) :
  get data "type" = Ok (VStr "connection_added") ->
  get data "connection" = Ok payload ->
  reduce ls random currentState data =
  (do added <- apiConnectionToUIConnection payload;
   Ok {| agents := agents currentState;
         connections := connections currentState ++ [added];
         loading := loading currentState;
         error := error currentState;
         connected := connected currentState |}).
Proof.
  intros Ht Hc. unfold reduce. rewrite Ht. simpl. rewrite Hc. reflexivity.
Qed.

Lemma reduce_agent_updated (data : value) :
  get data "type" = Ok (VStr "agent_updated") ->
  reduce ls random currentState data =
  (do agents' <-
     map_indexed (update_one ls random data) (agents currentState);
   Ok {| agents := agents';
         connections := connections currentState;
         loading := loading currentState;
         error := error currentState;
         connected := connected currentState |}).
Proof. intros Ht. unfold reduce. rewrite Ht. reflexivity. Qed.

Lemma reduce_unhandled (data : value) :
  unhandled data ->
  reduce ls random currentState data = Ok currentState
  \/ exists e, reduce ls random currentState data = Throw e.
Proof.
  intros Hun. unfold reduce.
  destruct (get data "type") as [type | e] eqn:Ht; simpl; [| eauto].
  left. destruct type; try reflexivity.
  specialize (Hun s Ht). unfold handled_types in Hun. simpl in Hun.
  repeat match goal with
         | |- context [String.eqb s ?lit] =>
             destruct (String.eqb_spec s lit) as [-> | _];
             [exfalso; apply Hun; tauto |]
         end.
  reflexivity.
Qed.

End Reducer.

(** ** Cascade delete *)

(** C6: for every state, an [agent_deleted] event with [agent_id] X
    keeps exactly the entities whose id is not X and exactly the
    relations whose source and target are both different from X, in
    their order and unchanged; the flags and the error are unchanged. *)
Theorem agent_deleted_cascade
    (ls : storage) (random : nat -> position)
    (st : AgentOrchestrationState) (data : value) (X : string) :
  get data "type" = Ok (VStr "agent_deleted") ->
  get data "agent_id" = Ok (VStr X) ->
  let st' := handleWebSocketMessage ls random st data in
  (forall a, a ∈ agents st' <-> a ∈ agents st /\ Agent.id a <> VStr X)
  /\ (forall c, c ∈ connections st' <->
                c ∈ connections st
                /\ Connection.fromAgent c <> VStr X
                /\ Connection.toAgent c <> VStr X)
  /\ sublist (agents st') (agents st)
  /\ sublist (connections st') (connections st)
  /\ loading st' = loading st
  /\ error st' = error st
  /\ connected st' = connected st.
Proof.
  intros Ht Hid st'. subst st'. unfold handleWebSocketMessage.
  rewrite (reduce_agent_deleted ls random st data (VStr X) Ht Hid). simpl.
  assert (Hsub : forall {A} (f : A -> bool) (l : list A),
             sublist (List.filter f l) l).
  { intros A f l. induction l as [| a l IH]; simpl; [constructor |].
    destruct (f a); [by apply sublist_skip | by apply sublist_cons]. }
  split; [| split; [| split; [| split]]]; auto.
  - intros a. rewrite !list_elem_of_In, filter_In, strict_neq_str. tauto.
  - intros c.
    rewrite !list_elem_of_In, filter_In, andb_true_iff, !strict_neq_str.
    tauto.
Qed.

Lemma agent_deleted_cascade_witness :
  let st' := handleWebSocketMessage no_store origin sample_state
               (VObj [("type", VStr "agent_deleted");
                      ("agent_id", VStr "a1")]) in
  (forall a, a ∈ agents st' <->
             a ∈ agents sample_state /\ Agent.id a <> VStr "a1")
  /\ (forall c, c ∈ connections st' <->
                c ∈ connections sample_state
                /\ Connection.fromAgent c <> VStr "a1"
                /\ Connection.toAgent c <> VStr "a1")
  /\ sublist (agents st') (agents sample_state)
  /\ sublist (connections st') (connections sample_state)
  /\ loading st' = loading sample_state
  /\ error st' = error sample_state
  /\ connected st' = connected sample_state.
Proof.
  apply (agent_deleted_cascade no_store origin sample_state
           (VObj [("type", VStr "agent_deleted"); ("agent_id", VStr "a1")])
           "a1"); reflexivity.
Defined.

(** ** Relation added *)

(** C2, as the code has it: for every state and every
    [connection_added] event whose [connection] payload converts, the
    converted relation is appended at the end of the relation list,
    whatever relations the state already holds; nothing else changes. *)
Theorem connection_added_appends
    (ls : storage) (random : nat -> position)
    (st : AgentOrchestrationState) (data payload : value)
    (added : Connection.t) :
  get data "type" = Ok (VStr "connection_added") ->
  get data "connection" = Ok payload ->
  apiConnectionToUIConnection payload = Ok added ->
  let st' := handleWebSocketMessage ls random st data in
  connections st' = connections st ++ [added]
  /\ agents st' = agents st
  /\ loading st' = loading st
  /\ error st' = error st
  /\ connected st' = connected st.
Proof.
  intros Ht Hc Hconv st'. subst st'. unfold handleWebSocketMessage.
  rewrite (reduce_connection_added ls random st data payload Ht Hc), Hconv.
  simpl. auto.
Qed.

Lemma connection_added_appends_witness :
  let st' := handleWebSocketMessage no_store origin sample_state
               (VObj [("type", VStr "connection_added");
                      ("connection", api_connection "r3" "a2" "a1")]) in
  connections st' =
    connections sample_state ++ [sample_connection "r3" "a2" "a1"]
  /\ agents st' = agents sample_state
  /\ loading st' = loading sample_state
  /\ error st' = error sample_state
  /\ connected st' = connected sample_state.
Proof.
  apply (connection_added_appends no_store origin sample_state
           (VObj [("type", VStr "connection_added");
                  ("connection", api_connection "r3" "a2" "a1")])
           (api_connection "r3" "a2" "a1")
           (sample_connection "r3" "a2" "a1")); reflexivity.
Defined.

(** C2 as stated fails: [sample_state] already holds a relation from
    a1/right to a2/left, and a [connection_added] event for the same
    four-tuple (under another id) does not leave the relation list
    unchanged: the state ends with two relations on that four-tuple. *)
Lemma connection_added_dedup_counterexample :
  let data := VObj [("type", VStr "connection_added");
                    ("connection", api_connection "r9" "a1" "a2")] in
  let st' := handleWebSocketMessage no_store origin sample_state data in
  existsb (same_endpoints "a1" "a2" "right" "left")
          (connections sample_state) = true
  /\ connections st' <> connections sample_state
  /\ length (List.filter (same_endpoints "a1" "a2" "right" "left")
                         (connections st')) = 2%nat.
Proof.
  split; [reflexivity |]. split; [| reflexivity].
  intros H. apply (f_equal (@length _)) in H. vm_compute in H. discriminate.
Qed.

(** ** Unhandled and faulting events *)

(** C3, as the code has it: the handler always returns a state (it has
    no exceptional outcome), and for every event that the [switch] has
    no case for, or whose processing raises, the state returned is the
    input state. *)
Theorem handler_ignores_unhandled_and_faulting
    (ls : storage) (random : nat -> position)
    (st : AgentOrchestrationState) (data : value) :
  unhandled data \/ (exists e, reduce ls random st data = Throw e) ->
  handleWebSocketMessage ls random st data = st.
Proof.
  intros [Hun | [e He]]; unfold handleWebSocketMessage.
  - destruct (reduce_unhandled ls random st data Hun) as [-> | [e ->]];
      reflexivity.
  - rewrite He. reflexivity.
Qed.

Lemma handler_ignores_unhandled_and_faulting_witness :
  handleWebSocketMessage no_store origin sample_state
    (VObj [("type", VStr "agent_created");
           ("agent", api_agent "a9" "n" "running")]) = sample_state
  /\ handleWebSocketMessage no_store origin sample_state
       (VObj [("type", VStr "agent_updated")]) = sample_state
  /\ handleWebSocketMessage no_store origin sample_state VUndef
     = sample_state.
Proof.
  split; [| split].
  - apply handler_ignores_unhandled_and_faulting. left.
    intros tag Htag. simpl in Htag. injection Htag as <-.
    simpl. intuition discriminate.
  - apply handler_ignores_unhandled_and_faulting. right.
    eexists. vm_compute. reflexivity.
  - apply handler_ignores_unhandled_and_faulting. right.
    eexists. vm_compute. reflexivity.
Defined.

(** C3 as stated fails: an [initial_state] event that carries neither
    [agents] nor [connections] is malformed, yet it raises nothing and
    replaces both lists by empty ones.  Likewise a [connection_added]
    event whose [connection] is an empty object appends a relation
    made of five [undefined] fields. *)
Lemma malformed_initial_state_counterexample :
  let data := VObj [("type", VStr "initial_state")] in
  let data' := VObj [("type", VStr "connection_added");
                     ("connection", VObj [])] in
  reduce no_store origin sample_state data =
    Ok {| agents := []; connections := []; loading := false;
          error := None; connected := true |}
  /\ handleWebSocketMessage no_store origin sample_state data <> sample_state
  /\ connections (handleWebSocketMessage no_store origin sample_state data')
     = connections sample_state
       ++ [ {| Connection.id := VUndef; Connection.fromAgent := VUndef;
               Connection.fromHandle := VUndef; Connection.toAgent := VUndef;
               Connection.toHandle := VUndef;
               Connection.direction := VUndef |} ].
Proof.
  split; [reflexivity |]. split; [| reflexivity].
  intros H. apply (f_equal (fun s => length (agents s))) in H.
  vm_compute in H. discriminate.
Qed.

(** ** Entity update *)

Lemma apiAgentToUIAgent_ok (ls : storage) (r : position) (p : value) :
  nullish p = false ->
  nullish (field p "config") = false ->
  exists position,
    apiAgentToUIAgent ls r p =
    Ok {| Agent.id := field p "id";
          Agent.x := pos_x position;
          Agent.y := pos_y position;
          Agent.width := 120;
          Agent.height := 80;
          Agent.label := field (field p "config") "name";
          Agent.selected := false;
          Agent.model := field (field p "config") "model";
          Agent.prompt := or_else (field (field p "config") "prompt") (VStr "");
          Agent.status := field p "status";
          Agent.url := field p "url";
          Agent.error := field p "error_message" |}.
Proof.
  intros Hp Hc. unfold apiAgentToUIAgent.
  rewrite !(get_field p) by assumption. simpl.
  rewrite !(get_field (field p "config")) by assumption. simpl.
  eexists. reflexivity.
Qed.

Lemma update_one_ok (ls : storage) (random : nat -> position)
    (data p : value) (i : nat) (agent : Agent.t) :
  get data "agent" = Ok p ->
  nullish p = false ->
  nullish (field p "config") = false ->
  update_one ls random data i agent = Ok (merge_server_fields p agent).
Proof.
  intros Hd Hp Hc. unfold update_one, merge_server_fields.
  rewrite Hd. simpl. rewrite (get_field p) by assumption. simpl.
  destruct (strict_eq _ _); [| reflexivity].
  destruct (apiAgentToUIAgent_ok ls (random i) p Hp Hc) as [pos ->].
  reflexivity.
Qed.

Lemma map_from_ok {A B} (f : nat -> A -> result B) (g : A -> B)
    (l : list A) :
  (forall i a, f i a = Ok (g a)) ->
  forall i, map_from f i l = Ok (List.map g l).
Proof.
  intros Hf. induction l as [| a l IH]; intros i; simpl; [reflexivity |].
  rewrite Hf. simpl. rewrite IH. reflexivity.
Qed.

(** Whatever its callback does to an element, [update_one] keeps the
    element's position and selection. *)
Lemma update_one_keeps_ui_fields (ls : storage) (random : nat -> position)
    (data : value) (i : nat) (agent agent' : Agent.t) :
  update_one ls random data i agent = Ok agent' ->
  Agent.x agent' = Agent.x agent
  /\ Agent.y agent' = Agent.y agent
  /\ Agent.selected agent' = Agent.selected agent.
Proof.
  unfold update_one.
  destruct (get data "agent") as [p |]; simpl; [| discriminate].
  destruct (get p "id") as [pid |]; simpl; [| discriminate].
  destruct (strict_eq _ _).
  - destruct (apiAgentToUIAgent _ _ _); simpl; [| discriminate].
    intros [= <-]. simpl. auto.
  - intros [= <-]. auto.
Qed.

Lemma map_from_pointwise {A} (f : nat -> A -> result A) (P : A -> A -> Prop)
    (l : list A) :
  (forall i a a', f i a = Ok a' -> P a a') ->
  forall i l', map_from f i l = Ok l' -> Forall2 P l l'.
Proof.
  intros Hf. induction l as [| a l IH]; intros i l'; simpl.
  - intros [= <-]. constructor.
  - destruct (f i a) as [a' |] eqn:Ha; simpl; [| discriminate].
    destruct (map_from f (S i) l) as [l0 |] eqn:Hl; simpl; [| discriminate].
    intros [= <-]. constructor; eauto.
Qed.

(** An [agent_updated] event, well-formed or not, never changes the
    position or the selection of any entity, nor the number of
    entities. *)
Lemma agent_updated_keeps_ui_fields
    (ls : storage) (random : nat -> position)
    (st : AgentOrchestrationState) (data : value) :
  get data "type" = Ok (VStr "agent_updated") ->
  Forall2 (fun a a' => Agent.x a' = Agent.x a
                       /\ Agent.y a' = Agent.y a
                       /\ Agent.selected a' = Agent.selected a)
          (agents st)
          (agents (handleWebSocketMessage ls random st data)).
Proof.
  intros Ht. unfold handleWebSocketMessage.
  rewrite (reduce_agent_updated ls random st data Ht).
  destruct (map_indexed _ _) as [l' |] eqn:Hm; simpl.
  - eapply map_from_pointwise; [| exact Hm].
    intros i a a'. apply update_one_keeps_ui_fields.
  - apply Forall2_same_length_lookup_2; [reflexivity |].
    intros i a a' H1 H2. rewrite H1 in H2. injection H2 as <-. auto.
Qed.

(** C7: for every state, an [agent_updated] event whose payload [p] is
    an agent record (not nullish, with a [config] that is not nullish)
    with id [id] turns each entity E of that id into E with [model],
    [prompt], [status], [url] and [error] (and the label) taken from
    the payload and with the position and selection flag E had;
    entities with another id, the relations, the flags and the error
    are unchanged. *)
Theorem agent_updated_merges_server_fields
    (ls : storage) (random : nat -> position)
    (st : AgentOrchestrationState) (data p : value) (id : string) :
  get data "type" = Ok (VStr "agent_updated") ->
  get data "agent" = Ok p ->
  nullish p = false ->
  nullish (field p "config") = false ->
  field p "id" = VStr id ->
  let st' := handleWebSocketMessage ls random st data in
  agents st' = List.map (merge_server_fields p) (agents st)
  /\ (forall E, E ∈ agents st -> Agent.id E = VStr id ->
        exists E', E' ∈ agents st'
          /\ Agent.id E' = VStr id
          /\ Agent.x E' = Agent.x E
          /\ Agent.y E' = Agent.y E
          /\ Agent.selected E' = Agent.selected E
          /\ Agent.model E' = field (field p "config") "model"
          /\ Agent.prompt E' =
               or_else (field (field p "config") "prompt") (VStr "")
          /\ Agent.status E' = field p "status"
          /\ Agent.url E' = field p "url"
          /\ Agent.error E' = field p "error_message")
  /\ (forall a, a ∈ agents st -> Agent.id a <> VStr id -> a ∈ agents st')
  /\ length (agents st') = length (agents st)
  /\ connections st' = connections st
  /\ loading st' = loading st
  /\ error st' = error st
  /\ connected st' = connected st.
Proof.
  intros Ht Hd Hp Hc Hid st'.
  assert (Hagents : agents st' = List.map (merge_server_fields p) (agents st)
                    /\ connections st' = connections st
                    /\ loading st' = loading st
                    /\ error st' = error st
                    /\ connected st' = connected st).
  { subst st'. unfold handleWebSocketMessage.
    rewrite (reduce_agent_updated ls random st data Ht).
    unfold map_indexed.
    rewrite (map_from_ok _ (merge_server_fields p)); [simpl; auto |].
    intros i a. by apply update_one_ok. }
  destruct Hagents as (Hagents & Hrest).
  split; [exact Hagents |]. rewrite Hagents.
  split; [| split; [| split; [apply length_map | exact Hrest]]].
  - intros E HE HEid. exists (merge_server_fields p E). split.
    + apply list_elem_of_In, in_map, list_elem_of_In, HE.
    + unfold merge_server_fields. rewrite Hid.
      replace (strict_eq (Agent.id E) (VStr id)) with true
        by (symmetry; by apply strict_eq_str).
      simpl. auto 10.
  - intros a Ha Hne.
    apply list_elem_of_In, in_map_iff. exists a. split.
    + unfold merge_server_fields. rewrite Hid.
      apply strict_neq_str, negb_true_iff in Hne. by rewrite Hne.
    + by apply list_elem_of_In.
Qed.

Lemma agent_updated_merges_server_fields_witness :
  let p := api_agent "a1" "planner" "running" in
  let st' := handleWebSocketMessage no_store origin sample_state
               (VObj [("type", VStr "agent_updated"); ("agent", p)]) in
  agents st' = List.map (merge_server_fields p) (agents sample_state)
  /\ (forall E, E ∈ agents sample_state -> Agent.id E = VStr "a1" ->
        exists E', E' ∈ agents st'
          /\ Agent.id E' = VStr "a1"
          /\ Agent.x E' = Agent.x E
          /\ Agent.y E' = Agent.y E
          /\ Agent.selected E' = Agent.selected E
          /\ Agent.model E' = field (field p "config") "model"
          /\ Agent.prompt E' =
               or_else (field (field p "config") "prompt") (VStr "")
          /\ Agent.status E' = field p "status"
          /\ Agent.url E' = field p "url"
          /\ Agent.error E' = field p "error_message")
  /\ (forall a, a ∈ agents sample_state -> Agent.id a <> VStr "a1" ->
        a ∈ agents st')
  /\ length (agents st') = length (agents sample_state)
  /\ connections st' = connections sample_state
  /\ loading st' = loading sample_state
  /\ error st' = error sample_state
  /\ connected st' = connected sample_state.
Proof.
  apply (agent_updated_merges_server_fields no_store origin sample_state
           (VObj [("type", VStr "agent_updated");
                  ("agent", api_agent "a1" "planner" "running")])
           (api_agent "a1" "planner" "running") "a1"); reflexivity.
Defined.

(** The update on [sample_state]: a1 keeps (40, 60) and its selection
    and takes the payload's model and status. *)
Example agent_updated_sample :
  agents (handleWebSocketMessage no_store origin sample_state
            (VObj [("type", VStr "agent_updated");
                   ("agent", api_agent "a1" "planner" "running")])) =
  [ {| Agent.id := VStr "a1"; Agent.x := 40; Agent.y := 60;
       Agent.width := 120; Agent.height := 80;
       Agent.label := VStr "planner"; Agent.selected := true;
       Agent.model := VStr "gpt-4o"; Agent.prompt := VStr "";
       Agent.status := VStr "running"; Agent.url := VUndef;
       Agent.error := VUndef |};
    sample_agent "a2" 300 100 false ].
Proof. reflexivity. Qed.

(** ** Optimistic relation mutations *)

Lemma same_endpoints_spec (a b h1 h2 : string) (c : Connection.t) :
  same_endpoints a b h1 h2 c = true <->
  Connection.fromAgent c = VStr a /\ Connection.toAgent c = VStr b
  /\ Connection.fromHandle c = VStr h1 /\ Connection.toHandle c = VStr h2.
Proof.
  unfold same_endpoints. rewrite !andb_true_iff, !strict_eq_str. tauto.
Qed.

Lemma has_id_spec (id : string) (c : Connection.t) :
  has_id id c = true <-> Connection.id c = VStr id.
Proof. apply strict_eq_str. Qed.

Lemma find_some_exists {A} (f : A -> bool) (l : list A) :
  (exists a, In a l /\ f a = true) -> exists a, List.find f l = Some a.
Proof.
  intros (a & Hin & Hf). induction l as [| b l IH]; simpl; [destruct Hin |].
  destruct (f b) eqn:Hb; [eauto |].
  destruct Hin as [-> | Hin]; [congruence | auto].
Qed.

(** C4, as the code has it: when the relations captured by the callback
    hold one with the requested four-tuple, [createConnection] sends no
    request, leaves the world (canonical state included) as it is and
    resolves with [undefined]. *)
Theorem createConnection_existing_is_noop
    (rendered : list Connection.t) (tempConnectionId : string)
    (net : fetch_outcome) (fromAgent toAgent fromHandle toHandle : string)
    (w : HookWorld) :
  (exists c, c ∈ rendered
             /\ Connection.fromAgent c = VStr fromAgent
             /\ Connection.toAgent c = VStr toAgent
             /\ Connection.fromHandle c = VStr fromHandle
             /\ Connection.toHandle c = VStr toHandle) ->
  createConnection rendered tempConnectionId net
                   fromAgent toAgent fromHandle toHandle w
  = (w, Resolved None).
Proof.
  intros (c & Hin & Hc). unfold createConnection.
  destruct (find_some_exists
              (same_endpoints fromAgent toAgent fromHandle toHandle) rendered)
    as [c' ->]; [| reflexivity].
  exists c. split; [by apply list_elem_of_In | by apply same_endpoints_spec].
Qed.

Lemma createConnection_existing_is_noop_witness :
  createConnection (connections sample_state) "temp-1-0.5" (Response true)
                   "a1" "a2" "right" "left" sample_world
  = (sample_world, Resolved None).
Proof.
  apply createConnection_existing_is_noop.
  exists (sample_connection "r1" "a1" "a2").
  split; [apply list_elem_of_here | repeat split; reflexivity].
Defined.

(** C4 as stated fails on both counts.  The call that finds the
    relation resolves with [undefined], not with the record.  And two
    calls in sequence on an empty relation set, each one re-rendered
    and each round-trip successful, send two requests and leave no
    relation on the four-tuple (the placeholder is removed when the
    request resolves); once the stream delivers the two records the
    server accepted, the state holds two. *)
Lemma createConnection_twice_counterexample :
  let first := createConnection (connections (state empty_world))
                 "temp-1-0.5" (Response true) "a" "b" "right" "left"
                 empty_world in
  let second := createConnection (connections (state first.1))
                  "temp-2-0.7" (Response true) "a" "b" "right" "left"
                  first.1 in
  let streamed :=
    handleWebSocketMessage no_store origin
      (handleWebSocketMessage no_store origin (state second.1)
         (VObj [("type", VStr "connection_added");
                ("connection", api_connection "a-b-1" "a" "b")]))
      (VObj [("type", VStr "connection_added");
             ("connection", api_connection "a-b-2" "a" "b")]) in
  (createConnection (connections sample_state) "temp-1-0.5" (Response true)
                    "a1" "a2" "right" "left" sample_world).2
    <> Resolved (Some (sample_connection "r1" "a1" "a2"))
  /\ sent second.1 = [PostConnection "a" "b" "right" "left";
                      PostConnection "a" "b" "right" "left"]
  /\ count_endpoints "a" "b" "right" "left" (connections (state second.1))
     = 0%nat
  /\ count_endpoints "a" "b" "right" "left" (connections streamed) = 2%nat.
Proof.
  split; [discriminate |]. repeat split; reflexivity.
Qed.

Lemma without_id_cons (id : string) (c : Connection.t)
    (cs : list Connection.t) :
  without_id id (c :: cs) =
  if has_id id c then without_id id cs else c :: without_id id cs.
Proof. unfold without_id. simpl. by destruct (has_id id c). Qed.

Lemma without_id_fresh (id : string) (cs : list Connection.t) :
  (forall c, c ∈ cs -> Connection.id c <> VStr id) ->
  without_id id cs = cs.
Proof.
  induction cs as [| c cs IH]; intros Hfresh; [reflexivity |].
  rewrite without_id_cons.
  assert (Hc : has_id id c = false).
  { apply negb_true_iff, strict_neq_str, Hfresh, list_elem_of_here. }
  rewrite Hc. f_equal. apply IH. intros c' Hin.
  apply Hfresh. by apply list_elem_of_further.
Qed.

Lemma without_id_app (id : string) (cs ds : list Connection.t) :
  without_id id (cs ++ ds) = without_id id cs ++ without_id id ds.
Proof. apply List.filter_app. Qed.





(** The failed deletion on [sample_state]: r1, first before, is last
    after the rollback. *)
Example deleteConnection_rollback_sample :
  connections
    (state (deleteConnection (connections sample_state) (Response false)
                             "r1" sample_world).1)
  = [sample_connection "r2" "a2" "a3"; sample_connection "r1" "a1" "a2"].
Proof. reflexivity. Qed.

(** ** Entity deletion and the position record *)

(** Whatever the outcome of the request, [deleteAgent] leaves
    [localStorage] as it was, sets the error and rejects. *)
Lemma deleteAgent_never_touches_store
    (net : fetch_outcome) (agentId : string) (w : HookWorld) :
  let r := deleteAgent net agentId w in
  localStorage r.1 = localStorage w
  /\ exists e, r.2 = Rejected e
               /\ error (state r.1) = Some (message_or e "Failed to delete agent").
Proof.
  unfold deleteAgent, deleteAgent_with, AgentOrchestrationAPI.deleteAgent,
    settle.
  destruct net as [m | [|]]; simpl; eauto.
Qed.

(** C10 at a successful deletion: the server answers ok to the deletion
    of a1, whose position record is in the store.  The record is still
    there afterwards, and the callback sets the error and rejects with
    the [ReferenceError] raised by the call of [setAgentPositions]. *)
Theorem deleteAgent_leaves_record_and_raises :
  let r := deleteAgent (Response true) "a1" world_with_position in
  getStoredPosition (localStorage world_with_position) (VStr "a1")
    = Some (Pos 40 60)
  /\ getStoredPosition (localStorage r.1) (VStr "a1") = Some (Pos 40 60)
  /\ sent r.1 = [DeleteAgent "a1"]
  /\ r.2 = Rejected (Exn "ReferenceError" "setAgentPositions is not defined")
  /\ error (state r.1) = Some "setAgentPositions is not defined".
Proof. vm_compute. repeat split; reflexivity. Qed.

(** ** Default positions *)

Lemma isOccupied_false (existingPositions : list position) (x y : Z) :
  isOccupied existingPositions x y = false <->
  forall q, q ∈ existingPositions -> apart (Pos x y) q.
Proof.
  unfold isOccupied, apart. simpl.
  induction existingPositions as [| p l IH]; simpl.
  - split; [| reflexivity]. intros _ q Hq. by apply elem_of_nil in Hq.
  - rewrite orb_false_iff, andb_false_iff, !Z.ltb_ge, IH. split.
    + intros [Hp Hl] q Hq.
      apply elem_of_cons in Hq as [-> | Hq]; [tauto | auto].
    + intros H. split.
      * destruct (H p (list_elem_of_here _ _)); auto.
      * intros q Hq. apply H. by apply list_elem_of_further.
Qed.

Lemma scan_cols_some (existingPositions : list position) (row : Z)
    (todo : nat) (col : Z) (p : position) :
  scan_cols existingPositions row col todo = Some p ->
  exists c, col <= c < col + Z.of_nat todo
            /\ p = Pos (c * gridSize + 100) (row * gridSize + 100)
            /\ isOccupied existingPositions (pos_x p) (pos_y p) = false.
Proof.
  revert col. induction todo as [| todo IH]; intros col; simpl;
    [discriminate |].
  destruct (isOccupied existingPositions (col * gridSize + 100)
                       (row * gridSize + 100)) eqn:Hocc.
  - intros H. destruct (IH _ H) as (c & Hc & Hp & Hfree).
    exists c. split; [lia | auto].
  - intros [= <-]. exists col. simpl. split; [lia | auto].
Qed.

Lemma scan_rows_some (existingPositions : list position)
    (todo : nat) (row : Z) (p : position) :
  scan_rows existingPositions row todo = Some p ->
  exists r c, row <= r < row + Z.of_nat todo /\ 0 <= c < 10
              /\ p = Pos (c * gridSize + 100) (r * gridSize + 100)
              /\ isOccupied existingPositions (pos_x p) (pos_y p) = false.
Proof.
  revert row. induction todo as [| todo IH]; intros row; cbn [scan_rows];
    [discriminate |].
  destruct (scan_cols existingPositions row 0 10) as [p' |] eqn:Hcols.
  - intros [= ->]. destruct (scan_cols_some _ _ _ _ _ Hcols)
      as (c & Hc & Hp & Hfree).
    exists row, c. split; [lia |]. split; [lia | auto].
  - intros H. destruct (IH _ H) as (r & c & Hr & Hc & Hp & Hfree).
    exists r, c. split; [lia | auto].
Qed.

(** A cell returned by the scan is a cell centre of the 10 x 10 grid
    and is at least 50 units away, in one axis or the other, from
    every position of the list. *)
Lemma scan_grid_some (existingPositions : list position) (p : position) :
  scan_grid existingPositions = Some p ->
  (exists row col, 0 <= row < 10 /\ 0 <= col < 10
                   /\ p = Pos (col * 200 + 100) (row * 200 + 100))
  /\ forall q, q ∈ existingPositions -> apart p q.
Proof.
  intros H. apply scan_rows_some in H as (r & c & Hr & Hc & Hp & Hfree).
  split; [exists r, c; split; [lia | auto] |].
  pose proof (proj1 (isOccupied_false _ _ _) Hfree) as Hap. by destruct p.
Qed.

Lemma prefix_append (p s : string) : String.prefix p (p +:+ s) = true.
Proof.
  induction p as [| a p IH]; simpl.
  - by destruct s.
  - destruct (Ascii.ascii_dec a a); [exact IH | congruence].
Qed.

(** Every position that [getStoredPosition] returns is among those
    [getAllStoredPositions] collects. *)
Lemma stored_position_collected (ls : storage) (agentId : value)
    (q : position) :
  getStoredPosition ls agentId = Some q ->
  q ∈ getAllStoredPositions ls.
Proof.
  unfold getStoredPosition, getAllStoredPositions.
  destruct (ls !! position_key agentId) as [it |] eqn:Hlk; [| discriminate].
  intros Hvalid. apply list_elem_of_omap.
  exists (position_key agentId, it). split.
  - by apply elem_of_map_to_list.
  - simpl. unfold position_key.
    by rewrite prefix_append.
Qed.

(** The position of a converted entity without a stored one is the
    default position. *)
Lemma apiAgentToUIAgent_position (ls : storage) (random : position)
    (apiAgent : value) (agent : Agent.t) :
  apiAgentToUIAgent ls random apiAgent = Ok agent ->
  getStoredPosition ls (field apiAgent "id") = None ->
  Pos (Agent.x agent) (Agent.y agent) = generateDefaultPosition ls random.
Proof.
  unfold apiAgentToUIAgent, field.
  destruct (get apiAgent "id") as [id |]; simpl; [| discriminate].
  intros H Hnone. rewrite Hnone in H.
  repeat match type of H with
         | context [get ?v ?k] => destruct (get v k); simpl in H;
                                  [| discriminate]
         end.
  injection H as <-. simpl. by destruct (generateDefaultPosition ls random).
Qed.

(** Take two entities given positions by [apiAgentToUIAgent], the
    second having no stored position and being placed while the
    position assigned to the first is in the store and the grid has a
    free cell.  Then the second is on a cell centre of the grid, and
    the two positions are at least 50 units apart in at least one of
    the two axes. *)
Theorem default_position_apart_from_stored
    (ls0 ls1 : storage) (random0 random1 : position)
    (first second : value) (a b : Agent.t) :
  apiAgentToUIAgent ls0 random0 first = Ok a ->
  apiAgentToUIAgent ls1 random1 second = Ok b ->
  getStoredPosition ls1 (field second "id") = None ->
  getStoredPosition ls1 (field first "id")
    = Some (Pos (Agent.x a) (Agent.y a)) ->
  scan_grid (getAllStoredPositions ls1) <> None ->
  (exists row col, 0 <= row < 10 /\ 0 <= col < 10
                   /\ Agent.x b = col * 200 + 100
                   /\ Agent.y b = row * 200 + 100)
  /\ (50 <= Z.abs (Agent.x a - Agent.x b)
      \/ 50 <= Z.abs (Agent.y a - Agent.y b)).
Proof.
  intros Ha Hb Hnone Hstored Hfree.
  apply apiAgentToUIAgent_position in Hb; [| exact Hnone].
  unfold generateDefaultPosition in Hb.
  destruct (scan_grid _) as [p |] eqn:Hscan; [| congruence].
  apply scan_grid_some in Hscan as [(row & col & Hr & Hc & Hp) Hapart].
  subst p. injection Hb as Hx Hy. split.
  - exists row, col. auto.
  - specialize (Hapart _ (stored_position_collected _ _ _ Hstored)).
    unfold apart in Hapart. simpl in Hapart. rewrite Hx, Hy. exact Hapart.
Qed.

Lemma default_position_apart_from_stored_witness :
  (exists row col, 0 <= row < 10 /\ 0 <= col < 10
                   /\ Agent.x (ui_agent "a2" "n2" 300 100) = col * 200 + 100
                   /\ Agent.y (ui_agent "a2" "n2" 300 100) = row * 200 + 100)
  /\ (50 <= Z.abs (Agent.x (ui_agent "a1" "n1" 100 100)
                   - Agent.x (ui_agent "a2" "n2" 300 100))
      \/ 50 <= Z.abs (Agent.y (ui_agent "a1" "n1" 100 100)
                      - Agent.y (ui_agent "a2" "n2" 300 100))).
Proof.
  apply (default_position_apart_from_stored
           no_store (storeAgentPosition true no_store "a1" 100 100)
           (Pos 0 0) (Pos 0 0)
           (api_agent "a1" "n1" "running") (api_agent "a2" "n2" "running")).
  - reflexivity.
  - vm_compute. reflexivity.
  - vm_compute. reflexivity.
  - vm_compute. reflexivity.
  - vm_compute. discriminate.
Defined.

(** An [initial_state] event with two agents, on an empty position
    store, places both on the first cell (100, 100). *)
Lemma default_positions_coincide_counterexample :
  let data := VObj [("type", VStr "initial_state");
                    ("agents", VArr [api_agent "a1" "n1" "running";
                                     api_agent "a2" "n2" "running"]);
                    ("connections", VArr [])] in
  let st' := handleWebSocketMessage no_store origin (state empty_world) data in
  getStoredPosition no_store (VStr "a1") = None
  /\ getStoredPosition no_store (VStr "a2") = None
  /\ agents st' = [ui_agent "a1" "n1" 100 100; ui_agent "a2" "n2" 100 100]
  /\ ~ (forall a b, agents st' = [a; b] ->
          50 <= Z.abs (Agent.x a - Agent.x b)
          /\ 50 <= Z.abs (Agent.y a - Agent.y b)).
Proof.
  split; [reflexivity |]. split; [reflexivity |]. split; [reflexivity |].
  intros H. destruct (H _ _ eq_refl) as [Hx _].
  vm_compute in Hx. by apply Hx.
Qed.

(** Once the first position is in the store the second entity goes to
    the next cell of the same row: 200 apart in x, not at all in y. *)
Example default_position_next_cell :
  generateDefaultPosition (storeAgentPosition true no_store "a1" 100 100)
                          (Pos 0 0)
  = Pos 300 100.
Proof. vm_compute. reflexivity. Qed.

(** Two entities without a stored position that are placed over the
    same store get the same default position: the scan looks at the
    stored positions only, and the converter does not store the
    position it hands out. *)
Lemma unstored_defaults_coincide
    (ls : storage) (random1 random2 : position)
    (first second : value) (a b : Agent.t) :
  apiAgentToUIAgent ls random1 first = Ok a ->
  apiAgentToUIAgent ls random2 second = Ok b ->
  getStoredPosition ls (field first "id") = None ->
  getStoredPosition ls (field second "id") = None ->
  scan_grid (getAllStoredPositions ls) <> None ->
  Agent.x a = Agent.x b /\ Agent.y a = Agent.y b.
Proof.
  intros Ha Hb Hna Hnb Hfree.
  apply apiAgentToUIAgent_position in Ha; [| exact Hna].
  apply apiAgentToUIAgent_position in Hb; [| exact Hnb].
  unfold generateDefaultPosition in *.
  destruct (scan_grid _); [| congruence].
  rewrite <- Hb in Ha. by injection Ha.
Qed.

(** C9 on an empty position store.  An [initial_state] event with two
    agents, neither of which has a stored position, gives both the
    position (100, 100); so do two successive [createAgent] calls of
    the hook.  The positions handed out are not in the store
    afterwards, which is why the second scan finds the first cell free
    again. *)
Theorem default_positions_coincide :
  let data := VObj [("type", VStr "initial_state");
                    ("agents", VArr [api_agent "a1" "n1" "running";
                                     api_agent "a2" "n2" "running"]);
                    ("connections", VArr [])] in
  let st' := handleWebSocketMessage no_store origin (state empty_world) data in
  let reply := fun id name =>
    Replied true (Ok "") (Ok (api_agent id name "running")) in
  let created1 := createAgent (Pos 0 0) (reply "a1" "n1") empty_world in
  let created2 := createAgent (Pos 0 0) (reply "a2" "n2") created1.1 in
  getStoredPosition no_store (VStr "a1") = None
  /\ getStoredPosition no_store (VStr "a2") = None
  /\ agents st' = [ui_agent "a1" "n1" 100 100; ui_agent "a2" "n2" 100 100]
  /\ agents (state created2.1)
     = [ui_agent "a1" "n1" 100 100; ui_agent "a2" "n2" 100 100]
  /\ localStorage created2.1 = no_store
  /\ Z.abs (Agent.x (ui_agent "a1" "n1" 100 100)
            - Agent.x (ui_agent "a2" "n2" 100 100)) = 0
  /\ Z.abs (Agent.y (ui_agent "a1" "n1" 100 100)
            - Agent.y (ui_agent "a2" "n2" 100 100)) = 0.
Proof. repeat split; reflexivity. Qed.

(** ** Stream open *)

(** As the class stands, the [onopen] handler resets the attempt counter
    and the reconnecting flag and then stops on the [TypeError] of the
    call [this.startHeartbeat()]: no timer is created, no observer is
    called. *)
Lemma onopen_stops_at_heartbeat (s : Service) (b : Browser) :
  let r := ws_onopen (s, b) in
  reconnectAttempts r.1.1 = 0
  /\ isReconnecting r.1.1 = false
  /\ heartbeatInterval r.1.1 = heartbeatInterval s
  /\ wsCallbacks r.1.1 = wsCallbacks s
  /\ r.1.2 = b
  /\ r.2 = Some (Exn "TypeError" "this.startHeartbeat is not a function").
Proof. simpl. auto 10. Qed.

(** With a [startHeartbeat] method in place that leaves the observers
    alone, the handler would go on to call every observer once, in
    registration order, with the [connection_established] event. *)
Lemma onopen_with_heartbeat_fans_out
    (start : Service * Browser -> Service * Browser)
    (s : Service) (b : Browser) :
  (forall sb, wsCallbacks (start sb).1 = wsCallbacks sb.1) ->
  let r := ws_onopen_with (Some start) (s, b) in
  r.2 = None
  /\ delivered r.1.2 =
       delivered (start (ws_onopen (s, b)).1).2
       ++ List.map (fun cb => (cb, connection_established)) (wsCallbacks s).
Proof.
  intros Hkeep. unfold ws_onopen, ws_onopen_with. simpl.
  match goal with |- context [start ?sb] =>
    specialize (Hkeep sb); destruct (start sb) as [s2 b2] end.
  simpl in *. by rewrite Hkeep.
Qed.

(** C1 at an open after two failed attempts, with two observers
    registered: the counter goes to 0, but no heartbeat timer exists
    afterwards, neither observer has been called, and the handler has
    raised. *)
Theorem onopen_skips_heartbeat_and_fan_out :
  let r := ws_onopen (two_observers, open_socket) in
  reconnectAttempts r.1.1 = 0
  /\ heartbeatInterval r.1.1 = None
  /\ timers r.1.2 = ∅
  /\ delivered r.1.2 = []
  /\ r.2 = Some (Exn "TypeError" "this.startHeartbeat is not a function").
Proof. repeat split; reflexivity. Qed.

(** ** Deliberate teardown *)

(** What [disconnectWebSocket] does: the reconnect timer, if any, is
    cancelled and forgotten, the socket, if any, is closed with code
    1000 and dropped, the observers are cleared and the counter and
    flags reset.  [heartbeatInterval] is not read or written, and a
    timer it designates stays pending. *)
Lemma disconnectWebSocket_effect (s : Service) (b : Browser) :
  let r := disconnectWebSocket (s, b) in
  reconnectTimeout r.1 = None
  /\ (forall t, reconnectTimeout s = Some t -> timers r.2 !! t = None)
  /\ ws r.1 = None
  /\ closes r.2 =
       closes b ++ match ws s with
                   | Some h => [(h, Some (1000, "Deliberate disconnect"))]
                   | None => []
                   end
  /\ wsCallbacks r.1 = []
  /\ reconnectAttempts r.1 = 0
  /\ isReconnecting r.1 = false
  /\ connectionCleanup r.1 = false
  /\ heartbeatInterval r.1 = heartbeatInterval s
  /\ (forall t, reconnectTimeout s <> Some t ->
                timers r.2 !! t = timers b !! t).
Proof.
  unfold disconnectWebSocket. simpl.
  destruct (reconnectTimeout s) as [t0 |], (ws s) as [h |]; simpl;
    repeat split; try reflexivity; try (by rewrite app_nil_r);
    try discriminate.
  all: intros t Ht;
    first [ injection Ht as <-; apply lookup_delete_eq
          | apply lookup_delete_ne; congruence ].
Qed.

(** After the teardown the close event of the dropped socket schedules
    nothing and calls no observer. *)
Lemma onclose_after_teardown (callback : nat) (s : Service) (b : Browser) :
  let torn := disconnectWebSocket (s, b) in
  (ws_onclose callback torn).2 = torn.2.
Proof. unfold disconnectWebSocket. by destruct (reconnectTimeout s), (ws s). Qed.

(** A service whose [heartbeatInterval] designates a pending timer
    keeps it through the teardown: the reconnect timer (3) is
    cancelled, the heartbeat timer (7) is not. *)
Lemma teardown_leaves_heartbeat_timer :
  let r := removeWebSocketCallback 1%nat (last_observer, pending_timers) in
  timers r.2 !! 3%positive = None
  /\ reconnectTimeout r.1 = None
  /\ closes r.2 = [(0%nat, Some (1000, "Deliberate disconnect"))]
  /\ wsCallbacks r.1 = []
  /\ reconnectAttempts r.1 = 0
  /\ heartbeatInterval r.1 = Some 7%positive
  /\ timers r.2 !! 7%positive = Some Heartbeat.
Proof. vm_compute. repeat split; reflexivity. Qed.

(** C8 on [both_observers_removed]: each of the two close events has
    scheduled a reconnect timer and the field [reconnectTimeout] only
    remembers the second.  The teardown triggered by the removal of
    the last observer closes the transport with code 1000, clears the
    observers and resets the counter, and cancels that second timer;
    the first one is still pending, and when it fires it registers
    observer 1 again and opens a new socket. *)
Theorem teardown_leaves_reconnect_timer :
  let before := both_sockets_closed in
  let torn := both_observers_removed in
  exists t1 t2 : positive,
    t1 <> t2
    /\ timers before.2 !! t1 = Some (Reconnect 3000 1%nat)
    /\ timers before.2 !! t2 = Some (Reconnect 3000 2%nat)
    /\ reconnectTimeout before.1 = Some t2
    /\ wsCallbacks torn.1 = []
    /\ ws torn.1 = None
    /\ reconnectAttempts torn.1 = 0
    /\ reconnectTimeout torn.1 = None
    /\ closes torn.2 = [(0%nat, None);
                        (1%nat, Some (1000, "Deliberate disconnect"))]
    /\ timers torn.2 !! t2 = None
    /\ timers torn.2 !! t1 = Some (Reconnect 3000 1%nat)
    /\ wsCallbacks (fire_timer t1 torn).1 = [1%nat]
    /\ ws (fire_timer t1 torn).1 = Some 2%nat
    /\ reconnectAttempts (fire_timer t1 torn).1 = 1.
Proof.
  exists 1%positive, 2%positive. vm_compute.
  split; [discriminate |]. repeat split; reflexivity.
Qed.

(** * Further properties *)

(** ** The position store *)

Lemma position_key_inj (a b : string) :
  position_key (VStr a) = position_key (VStr b) -> a = b.
Proof.
  unfold position_key. cbn [to_str]. intros H.
  by apply (inj (String.app _)) in H.
Qed.


(** A position written by [storeAgentPosition] is the one
    [getStoredPosition] reads back under the same id; the records of
    the other ids are not affected; a write the store refuses changes
    nothing. *)
Theorem stored_position_round_trip (ls : storage) (agentId : string)
    (x y : Z) :
  getStoredPosition (storeAgentPosition true ls agentId x y) (VStr agentId)
    = Some (Pos x y)
  /\ (forall other, other <> agentId ->
        getStoredPosition (storeAgentPosition true ls agentId x y)
                          (VStr other)
        = getStoredPosition ls (VStr other))
  /\ storeAgentPosition false ls agentId x y = ls.
Proof.
  unfold getStoredPosition, storeAgentPosition. split; [| split].
  - by rewrite lookup_insert_eq.
  - intros other Hne. rewrite lookup_insert_ne; [reflexivity |].
    intros H. apply position_key_inj in H. congruence.
  - reflexivity.
Qed.


(** [getAllStoredPositions] collects exactly the positions of the valid
    entries whose key starts with [agent_position_]: entries under
    other keys and invalid entries contribute nothing. *)
Theorem getAllStoredPositions_spec (ls : storage) (q : position) :
  q ∈ getAllStoredPositions ls <->
  exists key it, ls !! key = Some it
                 /\ String.prefix "agent_position_" key = true
                 /\ valid_position it = Some q.
Proof.
  unfold getAllStoredPositions. rewrite list_elem_of_omap. split.
  - intros ([key it] & Hin & Hq). simpl in Hq.
    apply elem_of_map_to_list in Hin.
    destruct (String.prefix "agent_position_" key) eqn:Hp; [| discriminate].
    eauto.
  - intros (key & it & Hlk & Hp & Hq). exists (key, it). split.
    + by apply elem_of_map_to_list.
    + simpl. by rewrite Hp.
Qed.

Lemma getAllStoredPositions_length (ls : storage) :
  (length (getAllStoredPositions ls) <= size ls)%nat.
Proof.
  unfold getAllStoredPositions. rewrite <- length_map_to_list.
  generalize (map_to_list ls). intros l.
  induction l as [| kv l IH]; [simpl; lia |].
  cbn [omap list_omap].
  destruct (String.prefix "agent_position_" kv.1);
    [destruct (valid_position kv.2) |]; cbn [length]; lia.
Qed.

(** ** The grid scan *)

Lemma isOccupied_true (existingPositions : list position) (p : position) :
  isOccupied existingPositions (pos_x p) (pos_y p) = true <->
  exists q, q ∈ existingPositions /\ near p q = true.
Proof.
  unfold isOccupied, near. rewrite existsb_exists.
  split; intros (q & Hq & Hn); exists q; split; auto;
    by apply list_elem_of_In.
Qed.

Lemma scan_cols_first (existingPositions : list position) (row : Z)
    (todo : nat) (col : Z) (p : position) :
  scan_cols existingPositions row col todo = Some p ->
  exists c, col <= c < col + Z.of_nat todo
            /\ p = cell_centre row c
            /\ isOccupied existingPositions (pos_x p) (pos_y p) = false
            /\ forall c', col <= c' < c ->
                 isOccupied existingPositions (pos_x (cell_centre row c'))
                            (pos_y (cell_centre row c')) = true.
Proof.
  revert col. induction todo as [| todo IH]; intros col; simpl;
    [discriminate |].
  destruct (isOccupied existingPositions (col * gridSize + 100)
                       (row * gridSize + 100)) eqn:Hocc.
  - intros H. destruct (IH _ H) as (c & Hc & Hp & Hfree & Hbefore).
    exists c. split; [lia |]. split; [auto |]. split; [auto |].
    intros c' Hc'. destruct (decide (c' = col)) as [-> | Hne];
      [exact Hocc | apply Hbefore; lia].
  - intros [= <-]. exists col. simpl. split; [lia |].
    split; [reflexivity |]. split; [exact Hocc |]. intros c' Hc'. lia.
Qed.

Lemma scan_cols_none (existingPositions : list position) (row : Z)
    (todo : nat) (col : Z) :
  scan_cols existingPositions row col todo = None <->
  forall c, col <= c < col + Z.of_nat todo ->
    isOccupied existingPositions (pos_x (cell_centre row c))
               (pos_y (cell_centre row c)) = true.
Proof.
  revert col. induction todo as [| todo IH]; intros col; simpl.
  - split; [intros _ c Hc; lia | reflexivity].
  - destruct (isOccupied existingPositions (col * gridSize + 100)
                         (row * gridSize + 100)) eqn:Hocc.
    + rewrite IH. split; intros H c Hc.
      * destruct (decide (c = col)) as [-> | Hne];
          [exact Hocc | apply H; lia].
      * apply H. lia.
    + split; [discriminate |]. intros H.
      specialize (H col). simpl in H. rewrite Hocc in H.
      discriminate H. lia.
Qed.

Lemma scan_rows_first (existingPositions : list position)
    (todo : nat) (row : Z) (p : position) :
  scan_rows existingPositions row todo = Some p ->
  exists r c, row <= r < row + Z.of_nat todo /\ 0 <= c < 10
              /\ p = cell_centre r c
              /\ isOccupied existingPositions (pos_x p) (pos_y p) = false
              /\ forall r' c', row <= r' -> 0 <= c' < 10 ->
                   r' < r \/ (r' = r /\ c' < c) ->
                   isOccupied existingPositions (pos_x (cell_centre r' c'))
                              (pos_y (cell_centre r' c')) = true.
Proof.
  revert row. induction todo as [| todo IH]; intros row; cbn [scan_rows];
    [discriminate |].
  destruct (scan_cols existingPositions row 0 10) as [p' |] eqn:Hcols.
  - intros [= ->].
    destruct (scan_cols_first _ _ _ _ _ Hcols)
      as (c & Hc & Hp & Hfree & Hbefore).
    exists row, c. split; [lia |]. split; [lia |]. split; [auto |].
    split; [auto |]. intros r' c' Hr' Hc' [Hlt | [-> Hlt]]; [lia |].
    apply Hbefore. lia.
  - intros H. destruct (IH _ H) as (r & c & Hr & Hc & Hp & Hfree & Hbefore).
    exists r, c. split; [lia |]. split; [auto |]. split; [auto |].
    split; [auto |]. intros r' c' Hr' Hc' Hlt.
    destruct (decide (r' = row)) as [-> | Hne].
    + apply (proj1 (scan_cols_none _ _ _ _) Hcols). lia.
    + apply Hbefore; lia.
Qed.

Lemma scan_rows_none (existingPositions : list position)
    (todo : nat) (row : Z) :
  scan_rows existingPositions row todo = None <->
  forall r c, row <= r < row + Z.of_nat todo -> 0 <= c < 10 ->
    isOccupied existingPositions (pos_x (cell_centre r c))
               (pos_y (cell_centre r c)) = true.
Proof.
  revert row. induction todo as [| todo IH]; intros row; cbn [scan_rows].
  - split; [intros _ r c Hr; lia | reflexivity].
  - destruct (scan_cols existingPositions row 0 10) as [p' |] eqn:Hcols.
    + split; [discriminate |]. intros H. exfalso.
      destruct (scan_cols_first _ _ _ _ _ Hcols) as (c & Hc & -> & Hfree & _).
      rewrite H in Hfree; [discriminate | lia | lia].
    + rewrite IH. split; intros H r c Hr Hc.
      * destruct (decide (r = row)) as [-> | Hne].
        -- apply (proj1 (scan_cols_none _ _ _ _) Hcols). lia.
        -- apply H; lia.
      * apply H; lia.
Qed.

(** The cell returned by the scan is the first free cell of the
    10 x 10 grid in row-major order: it is free, and every cell of an
    earlier row, or of the same row and an earlier column, is
    occupied. *)
Theorem scan_grid_first_free (existingPositions : list position)
    (p : position) :
  scan_grid existingPositions = Some p ->
  exists row col,
    0 <= row < 10 /\ 0 <= col < 10
    /\ p = cell_centre row col
    /\ isOccupied existingPositions (pos_x p) (pos_y p) = false
    /\ forall r c, 0 <= r < 10 -> 0 <= c < 10 ->
         r < row \/ (r = row /\ c < col) ->
         isOccupied existingPositions (pos_x (cell_centre r c))
                    (pos_y (cell_centre r c)) = true.
Proof.
  intros H. apply scan_rows_first in H
    as (r & c & Hr & Hc & Hp & Hfree & Hbefore).
  exists r, c. split; [lia |]. split; [lia |]. split; [auto |].
  split; [auto |]. intros r' c' Hr' Hc' Hlt. apply Hbefore; lia.
Qed.

Lemma scan_grid_first_free_witness :
  exists row col,
    0 <= row < 10 /\ 0 <= col < 10
    /\ Pos 300 100 = cell_centre row col
    /\ isOccupied [Pos 120 90] (pos_x (Pos 300 100)) (pos_y (Pos 300 100))
       = false
    /\ forall r c, 0 <= r < 10 -> 0 <= c < 10 ->
         r < row \/ (r = row /\ c < col) ->
         isOccupied [Pos 120 90] (pos_x (cell_centre r c))
                    (pos_y (cell_centre r c)) = true.
Proof. apply (scan_grid_first_free [Pos 120 90] (Pos 300 100)). reflexivity. Defined.

(** The scan finds no cell exactly when each of the hundred cells has
    a stored position within the threshold in both axes; only then
    does [generateDefaultPosition] return the random fallback, and
    otherwise its result does not depend on the random draw. *)
Theorem fallback_only_when_grid_full (ls : storage) (random : position) :
  (scan_grid (getAllStoredPositions ls) = None <->
   forall r c, 0 <= r < 10 -> 0 <= c < 10 ->
     isOccupied (getAllStoredPositions ls) (pos_x (cell_centre r c))
                (pos_y (cell_centre r c)) = true)
  /\ (scan_grid (getAllStoredPositions ls) = None ->
      generateDefaultPosition ls random = random)
  /\ (scan_grid (getAllStoredPositions ls) <> None ->
      forall random', generateDefaultPosition ls random'
                      = generateDefaultPosition ls random).
Proof.
  unfold generateDefaultPosition. split; [| split].
  - unfold scan_grid. rewrite scan_rows_none. split; intros H r c Hr Hc;
      apply H; lia.
  - by intros ->.
  - intros Hne random'. by destruct (scan_grid _).
Qed.

Lemma near_same_cell (r1 c1 r2 c2 : Z) (q : position) :
  near (cell_centre r1 c1) q = true ->
  near (cell_centre r2 c2) q = true ->
  r1 = r2 /\ c1 = c2.
Proof.
  unfold near, cell_centre, gridSize. simpl.
  rewrite !andb_true_iff, !Z.ltb_lt. lia.
Qed.

(** A stored position is within the threshold of at most one cell, so
    fewer than a hundred stored positions cannot occupy the whole
    grid: the scan then finds a cell. *)
Lemma scan_grid_finds_cell (existingPositions : list position) :
  (length existingPositions < 100)%nat ->
  scan_grid existingPositions <> None.
Proof.
  intros Hlen Hnone. unfold scan_grid in Hnone.
  pose proof (proj1 (scan_rows_none _ _ _) Hnone) as Hfull. clear Hnone.
  set (cell := fun n : Z => cell_centre (n / 10) (n `mod` 10)).
  set (pick := fun n : Z =>
                 default (Pos 0 0)
                         (List.find (near (cell n)) existingPositions)).
  assert (Hpick : forall n, 0 <= n < 100 ->
            pick n ∈ existingPositions /\ near (cell n) (pick n) = true).
  { intros n Hn.
    assert (Hocc : isOccupied existingPositions (pos_x (cell n))
                              (pos_y (cell n)) = true).
    { apply Hfull.
      - pose proof (Z.div_pos n 10). pose proof (Z.div_lt_upper_bound n 10 10).
        lia.
      - pose proof (Z.mod_pos_bound n 10). lia. }
    apply isOccupied_true in Hocc as (q & Hq & Hnear).
    destruct (find_some_exists (near (cell n)) existingPositions)
      as [q' Hfind].
    { exists q. split; [by apply list_elem_of_In | exact Hnear]. }
    unfold pick. rewrite Hfind. simpl.
    apply find_some in Hfind as [Hin Hn']. split; [| exact Hn'].
    by apply list_elem_of_In. }
  assert (Hnd : NoDup (pick <$> seqZ 0 100)).
  { apply NoDup_fmap_2_strong; [| apply NoDup_seqZ].
    intros n1 n2 H1 H2 Heq.
    apply elem_of_seqZ in H1. apply elem_of_seqZ in H2.
    destruct (Hpick n1) as [_ Hn1]; [lia |].
    destruct (Hpick n2) as [_ Hn2]; [lia |].
    rewrite Heq in Hn1.
    destruct (near_same_cell _ _ _ _ _ Hn1 Hn2) as [Hr Hc].
    rewrite (Z.div_mod n1 10), (Z.div_mod n2 10) by lia. congruence. }
  assert (Hsub : pick <$> seqZ 0 100 ⊆+ existingPositions).
  { apply NoDup_submseteq; [exact Hnd |].
    intros q Hq. apply list_elem_of_fmap in Hq as (n & -> & Hn).
    apply elem_of_seqZ in Hn. apply Hpick. lia. }
  apply submseteq_length in Hsub.
  rewrite length_fmap, length_seqZ in Hsub. simpl in Hsub. lia.
Qed.

(** With fewer than a hundred entries in the store the default
    position is never the random fallback: it is the centre of a grid
    cell, whatever the random draw. *)
Theorem default_position_on_grid (ls : storage) (random : position) :
  (size ls < 100)%nat ->
  exists row col, 0 <= row < 10 /\ 0 <= col < 10
                  /\ generateDefaultPosition ls random = cell_centre row col.
Proof.
  intros Hsize. unfold generateDefaultPosition.
  destruct (scan_grid (getAllStoredPositions ls)) as [p |] eqn:Hscan.
  - apply scan_rows_first in Hscan as (r & c & Hr & Hc & -> & _).
    exists r, c. split; [lia | auto].
  - exfalso. revert Hscan. apply scan_grid_finds_cell.
    pose proof (getAllStoredPositions_length ls). lia.
Qed.

Lemma default_position_on_grid_witness :
  exists row col, 0 <= row < 10 /\ 0 <= col < 10
                  /\ generateDefaultPosition
                       (storeAgentPosition true no_store "a1" 100 100)
                       (Pos 7 7)
                     = cell_centre row col.
Proof.
  apply default_position_on_grid. vm_compute. lia.
Defined.

(** ** Converters *)

Lemma apiAgentToUIAgent_cases (ls : storage) (random : position)
    (apiAgent : value) :
  match apiAgentToUIAgent ls random apiAgent with
  | Ok agent =>
      nullish apiAgent = false
      /\ nullish (field apiAgent "config") = false
      /\ Agent.id agent = field apiAgent "id"
      /\ Agent.selected agent = false
      /\ Agent.width agent = 120 /\ Agent.height agent = 80
      /\ Pos (Agent.x agent) (Agent.y agent) =
           match getStoredPosition ls (field apiAgent "id") with
           | Some stored => stored
           | None => generateDefaultPosition ls random
           end
  | Throw e =>
      (nullish apiAgent = true \/ nullish (field apiAgent "config") = true)
      /\ exists m, e = Exn "TypeError" m
  end.
Proof.
  destruct (nullish apiAgent) eqn:Hp.
  - destruct apiAgent; try discriminate; simpl; eauto.
  - destruct (nullish (field apiAgent "config")) eqn:Hc.
    + unfold apiAgentToUIAgent. rewrite !(get_field apiAgent) by assumption.
      simpl. destruct (field apiAgent "config"); try discriminate; simpl;
        eauto.
    + destruct (apiAgentToUIAgent_ok ls random apiAgent Hp Hc) as [pos Hok].
      pose proof Hok as Hok'. rewrite Hok. simpl.
      repeat split.
      unfold apiAgentToUIAgent in Hok'.
      rewrite !(get_field apiAgent) in Hok' by assumption. simpl in Hok'.
      rewrite !(get_field (field apiAgent "config")) in Hok' by assumption.
      simpl in Hok'. injection Hok' as Hx Hy. rewrite <- Hx, <- Hy.
      by destruct (match getStoredPosition ls (field apiAgent "id") with
                   | Some p => p
                   | None => generateDefaultPosition ls random
                   end).
Qed.

(** [apiAgentToUIAgent] fails exactly on a nullish payload or a
    nullish [config], with a [TypeError]; otherwise it yields an
    unselected 120 x 80 entity carrying the payload's id, placed at the
    stored position of that id if there is one and at the default
    position if not. *)
Theorem apiAgentToUIAgent_spec (ls : storage) (random : position)
    (apiAgent : value) :
  match apiAgentToUIAgent ls random apiAgent with
  | Ok agent =>
      nullish apiAgent = false
      /\ nullish (field apiAgent "config") = false
      /\ Agent.id agent = field apiAgent "id"
      /\ Agent.selected agent = false
      /\ Agent.width agent = 120 /\ Agent.height agent = 80
      /\ Pos (Agent.x agent) (Agent.y agent) =
           match getStoredPosition ls (field apiAgent "id") with
           | Some stored => stored
           | None => generateDefaultPosition ls random
           end
  | Throw e =>
      (nullish apiAgent = true \/ nullish (field apiAgent "config") = true)
      /\ exists m, e = Exn "TypeError" m
  end.
Proof. apply apiAgentToUIAgent_cases. Qed.

(** A position saved by [updateAgentPosition] is the one the agent gets
    back when a payload with its id is converted later (a reload or a
    new snapshot), whatever the default would have been. *)
Theorem moved_position_survives_reload
    (w : HookWorld) (agentId : string) (x y : Z) (random : position)
    (apiAgent : value) :
  nullish apiAgent = false ->
  nullish (field apiAgent "config") = false ->
  field apiAgent "id" = VStr agentId ->
  exists agent,
    apiAgentToUIAgent
      (localStorage (updateAgentPosition true agentId x y w))
      random apiAgent = Ok agent
    /\ Agent.x agent = x /\ Agent.y agent = y.
Proof.
  intros Hp Hc Hid.
  pose proof (apiAgentToUIAgent_cases
                (localStorage (updateAgentPosition true agentId x y w))
                random apiAgent) as Hspec.
  destruct (apiAgentToUIAgent _ _ _) as [agent | e].
  - exists agent. split; [reflexivity |].
    destruct Hspec as (_ & _ & _ & _ & _ & _ & Hpos).
    rewrite Hid in Hpos.
    change (localStorage (updateAgentPosition true agentId x y w))
      with (storeAgentPosition true (localStorage w) agentId x y) in Hpos.
    unfold getStoredPosition, storeAgentPosition in Hpos.
    rewrite lookup_insert_eq in Hpos. by injection Hpos.
  - destruct Hspec as [[H | H] _]; congruence.
Qed.

Lemma moved_position_survives_reload_witness :
  exists agent,
    apiAgentToUIAgent
      (localStorage (updateAgentPosition true "a1" 512 (-40) sample_world))
      (Pos 0 0) (api_agent "a1" "planner" "running") = Ok agent
    /\ Agent.x agent = 512 /\ Agent.y agent = -40.
Proof.
  apply (moved_position_survives_reload sample_world "a1" 512 (-40)
           (Pos 0 0) (api_agent "a1" "planner" "running")); reflexivity.
Defined.

(** Converting a relation to the API format and back keeps its id,
    endpoints and handles and drops its [direction]: the result is the
    relation itself exactly when it had none.  In the other order, the
    five fields of an API record come back as they were, and [enabled]
    comes back true whatever it was. *)
Theorem connection_round_trip (c : Connection.t) :
  apiConnectionToUIConnection (uiConnectionToApiConnection c)
  = Ok {| Connection.id := Connection.id c;
          Connection.fromAgent := Connection.fromAgent c;
          Connection.fromHandle := Connection.fromHandle c;
          Connection.toAgent := Connection.toAgent c;
          Connection.toHandle := Connection.toHandle c;
          Connection.direction := VUndef |}
  /\ (apiConnectionToUIConnection (uiConnectionToApiConnection c) = Ok c
      <-> Connection.direction c = VUndef)
  /\ (forall apiConnection c',
        apiConnectionToUIConnection apiConnection = Ok c' ->
        Forall (fun k => get (uiConnectionToApiConnection c') k
                         = get apiConnection k)
               ["id"; "from_agent"; "to_agent"; "from_handle"; "to_handle"]
        /\ get (uiConnectionToApiConnection c') "enabled" = Ok (VBool true)).
Proof.
  split; [reflexivity |]. split.
  - destruct c as [i fa fh ta th d]. cbn. split.
    + intros [= <-]. reflexivity.
    + intros ->. reflexivity.
  - intros p c' Hconv. unfold apiConnectionToUIConnection in Hconv.
    assert (Hnn : nullish p = false).
    { destruct (get p "id") as [v |] eqn:Hid; [| discriminate].
      exact (get_ok_not_nullish _ _ _ Hid). }
    rewrite !(get_field p) in Hconv by assumption. simpl in Hconv.
    injection Hconv as <-. split; [| reflexivity].
    repeat constructor; by rewrite (get_field p) by assumption.
Qed.

(** ** More of the reducer *)

Lemma filter_sublist {A} (f : A -> bool) (l : list A) :
  sublist (List.filter f l) l.
Proof.
  induction l as [| a l IH]; simpl; [constructor |].
  destruct (f a); [by apply sublist_skip | by apply sublist_cons].
Qed.

Lemma reduce_connection_removed (ls : storage) (random : nat -> position)
    (st : AgentOrchestrationState) (data : value) (X : string) :
  get data "type" = Ok (VStr "connection_removed") ->
  get data "connection_id" = Ok (VStr X) ->
  reduce ls random st data =
  Ok (with_connections (without_id X (connections st)) st).
Proof.
  intros Ht Hid. unfold reduce. rewrite Ht. simpl. rewrite Hid. reflexivity.
Qed.

(** A [connection_removed] event for id X keeps exactly the relations
    whose id is not X, in their order, and changes nothing else; when
    no relation has that id the state is returned as it is. *)
Theorem connection_removed_by_id
    (ls : storage) (random : nat -> position)
    (st : AgentOrchestrationState) (data : value) (X : string) :
  get data "type" = Ok (VStr "connection_removed") ->
  get data "connection_id" = Ok (VStr X) ->
  let st' := handleWebSocketMessage ls random st data in
  (forall c, c ∈ connections st' <->
             c ∈ connections st /\ Connection.id c <> VStr X)
  /\ sublist (connections st') (connections st)
  /\ agents st' = agents st
  /\ loading st' = loading st
  /\ error st' = error st
  /\ connected st' = connected st
  /\ ((forall c, c ∈ connections st -> Connection.id c <> VStr X) ->
      st' = st).
Proof.
  intros Ht Hid st'. subst st'. unfold handleWebSocketMessage.
  rewrite (reduce_connection_removed ls random st data X Ht Hid). simpl.
  split; [| split; [apply filter_sublist | repeat split]].
  - intros c. unfold without_id.
    rewrite !list_elem_of_In, filter_In. unfold has_id.
    rewrite strict_neq_str. tauto.
  - intros Hfresh. rewrite (without_id_fresh _ _ Hfresh). by destruct st.
Qed.

Lemma connection_removed_by_id_witness :
  let st' := handleWebSocketMessage no_store origin sample_state
               (VObj [("type", VStr "connection_removed");
                      ("connection_id", VStr "r1")]) in
  (forall c, c ∈ connections st' <->
             c ∈ connections sample_state /\ Connection.id c <> VStr "r1")
  /\ sublist (connections st') (connections sample_state)
  /\ agents st' = agents sample_state
  /\ loading st' = loading sample_state
  /\ error st' = error sample_state
  /\ connected st' = connected sample_state
  /\ ((forall c, c ∈ connections sample_state ->
                 Connection.id c <> VStr "r1") ->
      st' = sample_state).
Proof.
  apply (connection_removed_by_id no_store origin sample_state
           (VObj [("type", VStr "connection_removed");
                  ("connection_id", VStr "r1")]) "r1"); reflexivity.
Defined.

(** A relation added by a [connection_added] event under an id that no
    relation of the state has is taken out again by the
    [connection_removed] event for that id: the state is back to what
    it was. *)
Theorem connection_added_then_removed
    (ls : storage) (random : nat -> position)
    (st : AgentOrchestrationState) (added removed payload : value)
    (c : Connection.t) (X : string) :
  get added "type" = Ok (VStr "connection_added") ->
  get added "connection" = Ok payload ->
  apiConnectionToUIConnection payload = Ok c ->
  Connection.id c = VStr X ->
  get removed "type" = Ok (VStr "connection_removed") ->
  get removed "connection_id" = Ok (VStr X) ->
  (forall c', c' ∈ connections st -> Connection.id c' <> VStr X) ->
  handleWebSocketMessage ls random
    (handleWebSocketMessage ls random st added) removed = st.
Proof.
  intros Ht Hc Hconv HX Ht' Hid Hfresh.
  unfold handleWebSocketMessage at 2.
  rewrite (reduce_connection_added ls random st added payload Ht Hc), Hconv.
  simpl. unfold handleWebSocketMessage.
  rewrite (reduce_connection_removed ls random _ removed X Ht' Hid). simpl.
  rewrite without_id_app, (without_id_fresh _ _ Hfresh), without_id_cons.
  replace (has_id X c) with true
    by (symmetry; by apply has_id_spec).
  rewrite app_nil_r. by destruct st.
Qed.

Lemma connection_added_then_removed_witness :
  handleWebSocketMessage no_store origin
    (handleWebSocketMessage no_store origin sample_state
       (VObj [("type", VStr "connection_added");
              ("connection", api_connection "r5" "a2" "a1")]))
    (VObj [("type", VStr "connection_removed"); ("connection_id", VStr "r5")])
  = sample_state.
Proof.
  apply (connection_added_then_removed no_store origin sample_state _ _
           (api_connection "r5" "a2" "a1")
           (sample_connection "r5" "a2" "a1") "r5");
    try reflexivity.
  intros c Hc. simpl in Hc.
  apply elem_of_cons in Hc as [-> | Hc]; [discriminate |].
  apply elem_of_cons in Hc as [-> | Hc]; [discriminate |].
  by apply elem_of_nil in Hc.
Defined.

Lemma map_from_forall {A B} (f : nat -> A -> result B) (P : B -> Prop)
    (l : list A) :
  (forall i a b, f i a = Ok b -> P b) ->
  forall i l', map_from f i l = Ok l' -> Forall P l'.
Proof.
  intros Hf. induction l as [| a l IH]; intros i l'; simpl.
  - intros [= <-]. constructor.
  - destruct (f i a) as [b |] eqn:Hb; simpl; [| discriminate].
    destruct (map_from f (S i) l) as [l0 |] eqn:Hl; simpl; [| discriminate].
    intros [= <-]. constructor; eauto.
Qed.

Lemma optional_map_forall {B} (f : nat -> value -> result B) (P : B -> Prop)
    (v : value) (l' : list B) :
  (forall i a b, f i a = Ok b -> P b) ->
  optional_map f v = Ok l' -> Forall P l'.
Proof.
  intros Hf. destruct v; simpl; try discriminate;
    try (intros [= <-]; constructor).
  unfold map_indexed. by apply map_from_forall.
Qed.

Lemma map_from_lookup {A B} (f : nat -> A -> result B) (l : list A) :
  forall i l', map_from f i l = Ok l' ->
  length l' = length l
  /\ forall k x, l !! k = Some x ->
       exists y, l' !! k = Some y /\ f (i + k)%nat x = Ok y.
Proof.
  induction l as [| a l IH]; intros i l'; simpl.
  - intros [= <-]. split; [reflexivity |]. intros k x Hk. discriminate.
  - destruct (f i a) as [b |] eqn:Hb; simpl; [| discriminate].
    destruct (map_from f (S i) l) as [l0 |] eqn:Hl; simpl; [| discriminate].
    intros [= <-]. destruct (IH _ _ Hl) as [Hlen Hlook].
    split; [simpl; lia |]. intros [| k] x Hk; simpl in Hk.
    + injection Hk as <-. exists b. by rewrite Nat.add_0_r.
    + destruct (Hlook k x Hk) as (y & Hy & Hf). exists y.
      split; [exact Hy |]. by replace (i + S k)%nat with (S i + k)%nat by lia.
Qed.

Lemma optional_map_converted {B} (f : nat -> value -> result B) (v : value)
    (l : list B) :
  optional_map f v = Ok l -> converted_from f v l.
Proof.
  destruct v; simpl; try discriminate; try (by intros [= <-]).
  unfold map_indexed. intros H. by apply map_from_lookup in H.
Qed.

(** An [initial_state] event that is processed without fault replaces
    the entities and relations by those of the snapshot: the new
    entities are the conversions of the elements of [data.agents], one
    per element and in order (none when the field is absent), and
    likewise the relations for [data.connections], whatever the state
    held before.  The result depends on the prior state only through
    its error, which is kept.  [loading] becomes false and [connected]
    true, and every entity of the new state is unselected. *)
Theorem initial_state_replaces
    (ls : storage) (random : nat -> position)
    (st st' : AgentOrchestrationState) (data : value) :
  get data "type" = Ok (VStr "initial_state") ->
  reduce ls random st data = Ok st' ->
  converted_from (fun i a => apiAgentToUIAgent ls (random i) a)
                 (field data "agents") (agents st')
  /\ converted_from (fun _ c => apiConnectionToUIConnection c)
                    (field data "connections") (connections st')
  /\ loading st' = false
  /\ connected st' = true
  /\ error st' = error st
  /\ Forall (fun a => Agent.selected a = false) (agents st')
  /\ forall st2,
       handleWebSocketMessage ls random st2 data =
       {| agents := agents st'; connections := connections st';
          loading := false; error := error st2; connected := true |}.
Proof.
  intros Ht. unfold handleWebSocketMessage, reduce, field. rewrite Ht. simpl.
  destruct (get data "agents") as [agents_v |]; simpl; [| discriminate].
  destruct (optional_map _ agents_v) as [initialAgents |] eqn:Ha; simpl;
    [| discriminate].
  destruct (get data "connections") as [connections_v |]; simpl;
    [| discriminate].
  destruct (optional_map _ connections_v) as [initialConnections |] eqn:Hc;
    simpl; [| discriminate].
  intros [= <-]. simpl.
  split; [by apply optional_map_converted |].
  split; [by apply optional_map_converted |].
  do 3 (split; [reflexivity |]). split; [| reflexivity].
  eapply optional_map_forall; [| exact Ha].
  intros i a b Hb. simpl in Hb.
  pose proof (apiAgentToUIAgent_cases ls (random i) a) as Hspec.
  rewrite Hb in Hspec. tauto.
Qed.

Lemma initial_state_replaces_witness :
  let data := VObj [("type", VStr "initial_state");
                    ("agents", VArr [api_agent "a7" "n7" "running"]);
                    ("connections", VArr [api_connection "r7" "a7" "a7"])] in
  let st' := {| agents := [ui_agent "a7" "n7" 100 100];
                connections := [sample_connection "r7" "a7" "a7"];
                loading := false; error := None; connected := true |} in
  converted_from (fun i a => apiAgentToUIAgent no_store (origin i) a)
                 (field data "agents") (agents st')
  /\ converted_from (fun _ c => apiConnectionToUIConnection c)
                    (field data "connections") (connections st')
  /\ loading st' = false
  /\ connected st' = true
  /\ error st' = error sample_state
  /\ Forall (fun a => Agent.selected a = false) (agents st')
  /\ forall st2,
       handleWebSocketMessage no_store origin st2 data =
       {| agents := agents st'; connections := connections st';
          loading := false; error := error st2; connected := true |}.
Proof.
  apply (initial_state_replaces no_store origin sample_state); reflexivity.
Defined.



(** An [error] that is an object with a [toString] entry of its own
    cannot be put in the message: the event leaves the state as it
    is. *)
Example connection_error_unprintable :
  handleWebSocketMessage no_store origin sample_state
    (VObj [("type", VStr "connection_error");
           ("error", VObj [("toString", VStr "x")])])
  = sample_state.
Proof. reflexivity. Qed.

(** What no event does.  Apart from [initial_state], no event changes
    [loading] or adds an entity; apart from [initial_state] and
    [connection_added], no event adds or reorders a relation; and
    apart from [initial_state] and the three connection-status events,
    no event changes [connected] or the error.  This holds for every
    value received, malformed ones included. *)
Theorem reducer_frame
    (ls : storage) (random : nat -> position)
    (st : AgentOrchestrationState) (data : value) :
  let st' := handleWebSocketMessage ls random st data in
  let type_is := fun tag => get data "type" = Ok (VStr tag) in
  (~ type_is "initial_state" ->
     loading st' = loading st
     /\ (length (agents st') <= length (agents st))%nat)
  /\ (~ type_is "initial_state" -> ~ type_is "connection_added" ->
      sublist (connections st') (connections st))
  /\ (~ type_is "initial_state" -> ~ type_is "connection_established" ->
      ~ type_is "connection_failed" -> ~ type_is "connection_error" ->
      connected st' = connected st /\ error st' = error st).
Proof.
  simpl. unfold handleWebSocketMessage.
  destruct (get data "type") as [type |] eqn:Ht;
    [| unfold reduce; rewrite Ht; simpl; auto].
  destruct type as [| | | | tag | |];
    try (unfold reduce; rewrite Ht; simpl; auto; fail).
  destruct (decide (tag = "agent_updated")) as [-> | Hn1].
  { pose proof (agent_updated_keeps_ui_fields ls random st data Ht) as Hf.
    apply Forall2_length in Hf. unfold handleWebSocketMessage in Hf.
    rewrite (reduce_agent_updated ls random st data Ht) in *.
    destruct (map_indexed _ _); simpl in *; repeat split; auto; lia. }
  unfold reduce. rewrite Ht. simpl.
  repeat match goal with
         | |- context [String.eqb tag ?lit] =>
             destruct (String.eqb_spec tag lit) as [-> | ?]
         end;
    try congruence;
    repeat match goal with
           | |- context [Js.bind ?m _] => destruct m; simpl
           end;
    repeat split; intros; try congruence; auto;
    try apply filter_sublist; try apply List.filter_length_le.
Qed.

(** ** More of the optimistic mutations *)

Lemma with_connections_same (s : AgentOrchestrationState) :
  with_connections (connections s) s = s.
Proof. by destruct s. Qed.

(** A [createConnection] whose request succeeds sends exactly one POST
    and leaves the state as it found it: the placeholder it had added
    is gone again and no record takes its place (that is left to the
    stream).  The four-tuple is assumed new and the temporary id
    fresh. *)
Theorem createConnection_success_leaves_state
    (w : HookWorld) (tempConnectionId : string)
    (fromAgent toAgent fromHandle toHandle : string) :
  List.find (same_endpoints fromAgent toAgent fromHandle toHandle)
            (connections (state w)) = None ->
  (forall c, c ∈ connections (state w) ->
             Connection.id c <> VStr tempConnectionId) ->
  createConnection (connections (state w)) tempConnectionId (Response true)
                   fromAgent toAgent fromHandle toHandle w
  = ({| state := state w;
        sent := sent w ++ [PostConnection fromAgent toAgent
                                          fromHandle toHandle];
        localStorage := localStorage w |},
     Resolved None).
Proof.
  intros Hnew Hfresh. unfold createConnection. rewrite Hnew. simpl.
  unfold setState, send. simpl.
  rewrite without_id_app, (without_id_fresh _ _ Hfresh), without_id_cons.
  unfold has_id at 1. simpl. rewrite String.eqb_refl. simpl.
  rewrite app_nil_r. by destruct (state w).
Qed.

Lemma createConnection_success_leaves_state_witness :
  createConnection (connections (state sample_world)) "temp-1-0.5"
                   (Response true) "a3" "a1" "right" "left" sample_world
  = ({| state := state sample_world;
        sent := sent sample_world
                ++ [PostConnection "a3" "a1" "right" "left"];
        localStorage := localStorage sample_world |},
     Resolved None).
Proof.
  apply createConnection_success_leaves_state; [reflexivity |].
  intros c Hc. simpl in Hc.
  apply elem_of_cons in Hc as [-> | Hc]; [discriminate |].
  apply elem_of_cons in Hc as [-> | Hc]; [discriminate |].
  by apply elem_of_nil in Hc.
Defined.

Lemma createConnection_phases (rendered : list Connection.t)
    (tempConnectionId : string) (net : fetch_outcome)
    (fromAgent toAgent fromHandle toHandle : string) (w : HookWorld) :
  createConnection rendered tempConnectionId net
                   fromAgent toAgent fromHandle toHandle w
  = match createConnection_begin rendered tempConnectionId
            fromAgent toAgent fromHandle toHandle w with
    | None => (w, Resolved None)
    | Some w1 => createConnection_settle tempConnectionId net w1
    end.
Proof.
  unfold createConnection, createConnection_begin, createConnection_settle.
  by destruct (List.find _ rendered).
Qed.

(** When the stream delivers the authoritative record (under an id
    other than the temporary one) while the request is in flight, the
    settling of the request, successful or not, removes the
    placeholder and keeps the record: the relations end as the
    original ones followed by the record. *)
Theorem placeholder_superseded_by_stream
    (w w1 : HookWorld) (tempConnectionId : string) (net : fetch_outcome)
    (fromAgent toAgent fromHandle toHandle : string)
    (random : nat -> position) (data payload : value) (c : Connection.t) :
  createConnection_begin (connections (state w)) tempConnectionId
    fromAgent toAgent fromHandle toHandle w = Some w1 ->
  (forall c', c' ∈ connections (state w) ->
              Connection.id c' <> VStr tempConnectionId) ->
  get data "type" = Ok (VStr "connection_added") ->
  get data "connection" = Ok payload ->
  apiConnectionToUIConnection payload = Ok c ->
  Connection.id c <> VStr tempConnectionId ->
  connections
    (state (createConnection_settle tempConnectionId net
              (deliver random data w1)).1)
  = connections (state w) ++ [c].
Proof.
  intros Hbegin Hfresh Ht Hc Hconv Hid.
  unfold createConnection_begin in Hbegin.
  destruct (List.find _ _); [discriminate |]. injection Hbegin as <-.
  unfold deliver, createConnection_settle, setState, send. simpl.
  unfold handleWebSocketMessage.
  rewrite (reduce_connection_added _ _ _ data payload Ht Hc), Hconv. simpl.
  assert (Hrel :
    without_id tempConnectionId
      ((connections (state w)
        ++ [ {| Connection.id := VStr tempConnectionId;
                Connection.fromAgent := VStr fromAgent;
                Connection.fromHandle := VStr fromHandle;
                Connection.toAgent := VStr toAgent;
                Connection.toHandle := VStr toHandle;
                Connection.direction := VUndef |} ]) ++ [c])
    = connections (state w) ++ [c]).
  { rewrite !without_id_app, (without_id_fresh _ _ Hfresh), !without_id_cons.
    unfold has_id at 1. simpl. rewrite String.eqb_refl.
    apply strict_neq_str, negb_true_iff in Hid. unfold has_id. rewrite Hid.
    by rewrite app_nil_r. }
  destruct (AgentOrchestrationAPI.createConnection net); simpl; exact Hrel.
Qed.

Lemma placeholder_superseded_by_stream_witness :
  connections
    (state (createConnection_settle "temp-1-0.5" (Response true)
              (deliver origin
                 (VObj [("type", VStr "connection_added");
                        ("connection", api_connection "a3-a1-17" "a3" "a1")])
                 (send (PostConnection "a3" "a1" "right" "left")
                    (setState
                       (fun prev =>
                          with_connections
                            (connections prev
                             ++ [ {| Connection.id := VStr "temp-1-0.5";
                                     Connection.fromAgent := VStr "a3";
                                     Connection.fromHandle := VStr "right";
                                     Connection.toAgent := VStr "a1";
                                     Connection.toHandle := VStr "left";
                                     Connection.direction := VUndef |} ])
                            prev) sample_world)))).1)
  = connections (state sample_world)
    ++ [sample_connection "a3-a1-17" "a3" "a1"].
Proof.
  apply (placeholder_superseded_by_stream sample_world _ "temp-1-0.5"
           (Response true) "a3" "a1" "right" "left" origin _
           (api_connection "a3-a1-17" "a3" "a1")
           (sample_connection "a3-a1-17" "a3" "a1"));
    try reflexivity; try discriminate.
  intros c Hc. simpl in Hc.
  apply elem_of_cons in Hc as [-> | Hc]; [discriminate |].
  apply elem_of_cons in Hc as [-> | Hc]; [discriminate |].
  by apply elem_of_nil in Hc.
Defined.

Lemma find_none_iff {A} (f : A -> bool) (l : list A) :
  List.find f l = None <-> forall a, In a l -> f a = false.
Proof.
  split; [apply find_none |]. intros H.
  induction l as [| a l IH]; simpl; [reflexivity |].
  rewrite (H a) by (by left). apply IH. intros b Hb. apply H. by right.
Qed.

(** [deleteConnection] on an id that none of the captured relations
    has sends no request and changes nothing.  On an id that one has,
    with a successful request, it sends exactly one DELETE, removes the
    relations of that id and changes nothing else. *)
Theorem deleteConnection_outcomes (w : HookWorld) (connectionId : string) :
  ((forall c, c ∈ connections (state w) ->
              Connection.id c <> VStr connectionId) ->
   forall net,
     deleteConnection (connections (state w)) net connectionId w
     = (w, Resolved None))
  /\ ((exists c, c ∈ connections (state w)
                 /\ Connection.id c = VStr connectionId) ->
      deleteConnection (connections (state w)) (Response true)
                       connectionId w
      = ({| state := with_connections
                       (without_id connectionId (connections (state w)))
                       (state w);
            sent := sent w ++ [DeleteConnection connectionId];
            localStorage := localStorage w |},
         Resolved None)).
Proof.
  split.
  - intros Hnone net. unfold deleteConnection.
    replace (List.find (has_id connectionId) (connections (state w)))
      with (@None Connection.t); [reflexivity |].
    symmetry. apply find_none_iff. intros c Hc.
    apply negb_true_iff, strict_neq_str, Hnone. by apply list_elem_of_In.
  - intros (c & Hin & Hc). unfold deleteConnection.
    destruct (find_some_exists (has_id connectionId) (connections (state w)))
      as [c' ->]; [| reflexivity].
    exists c. split; [by apply list_elem_of_In | by apply has_id_spec].
Qed.

(** ** Selection and moves *)

Lemma strict_eq_null (v : value) : strict_eq v VNull = true <-> v = VNull.
Proof. destruct v; simpl; split; congruence. Qed.

(** [selectAgent] changes the selection flags and nothing else: each
    entity keeps every other field (id, position, size, label, model,
    prompt, status, url, error), and the relations, flags and error of
    the state are kept.  After [selectAgent(id)] an entity is selected
    exactly when its id is [id]; after [selectAgent(null)] only an
    entity whose id is [null] would be, so none is when the ids are
    strings.  The selection made by an earlier call is forgotten. *)
Theorem selectAgent_spec (agentId : value) (s : AgentOrchestrationState) :
  let s' := selectAgent agentId s in
  Forall2 (fun a a' =>
             a' = {| Agent.id := Agent.id a;
                     Agent.x := Agent.x a;
                     Agent.y := Agent.y a;
                     Agent.width := Agent.width a;
                     Agent.height := Agent.height a;
                     Agent.label := Agent.label a;
                     Agent.selected := Agent.selected a';
                     Agent.model := Agent.model a;
                     Agent.prompt := Agent.prompt a;
                     Agent.status := Agent.status a;
                     Agent.url := Agent.url a;
                     Agent.error := Agent.error a |}
             /\ (forall id, agentId = VStr id ->
                   (Agent.selected a' = true <-> Agent.id a = VStr id))
             /\ (agentId = VNull ->
                   (Agent.selected a' = true <-> Agent.id a = VNull)))
          (agents s) (agents s')
  /\ connections s' = connections s
  /\ loading s' = loading s /\ error s' = error s
  /\ connected s' = connected s
  /\ forall earlier, selectAgent agentId (selectAgent earlier s) = s'.
Proof.
  cbv zeta. unfold selectAgent, with_agents. cbn [agents connections loading
                                                  error connected].
  split; [| split; [reflexivity |]; split; [reflexivity |];
            split; [reflexivity |]; split; [reflexivity |]].
  - induction (agents s) as [| a l IH]; simpl; constructor; [| exact IH].
    cbn. split; [reflexivity |]. split.
    + intros id ->. apply strict_eq_str.
    + intros ->. apply strict_eq_null.
  - intros earlier. f_equal. rewrite List.map_map. reflexivity.
Qed.

(** [updateAgentPosition] moves the entities of the given id to the
    given coordinates and leaves every other field of theirs, every
    other entity, the relations, the flags, the error and the request
    log alone.  It does so whether or not the store took the write:
    after an accepted write the store holds the new position under
    the id, after a refused one the store is as before while the state
    shows the new position. *)
Theorem updateAgentPosition_spec (accepted : bool) (agentId : string)
    (x y : Z) (w : HookWorld) :
  let w' := updateAgentPosition accepted agentId x y w in
  Forall2 (fun a a' =>
             (Agent.id a = VStr agentId ->
              a' = {| Agent.id := Agent.id a;
                      Agent.x := x;
                      Agent.y := y;
                      Agent.width := Agent.width a;
                      Agent.height := Agent.height a;
                      Agent.label := Agent.label a;
                      Agent.selected := Agent.selected a;
                      Agent.model := Agent.model a;
                      Agent.prompt := Agent.prompt a;
                      Agent.status := Agent.status a;
                      Agent.url := Agent.url a;
                      Agent.error := Agent.error a |})
             /\ (Agent.id a <> VStr agentId -> a' = a))
          (agents (state w)) (agents (state w'))
  /\ connections (state w') = connections (state w)
  /\ loading (state w') = loading (state w)
  /\ error (state w') = error (state w)
  /\ connected (state w') = connected (state w)
  /\ sent w' = sent w
  /\ state w' = state (updateAgentPosition (negb accepted) agentId x y w)
  /\ (accepted = true ->
      getStoredPosition (localStorage w') (VStr agentId) = Some (Pos x y))
  /\ (accepted = false -> localStorage w' = localStorage w).
Proof.
  cbv zeta. unfold updateAgentPosition.
  cbn [state agents connections loading error connected sent localStorage].
  split; [| do 6 (split; [reflexivity |]); split].
  - induction (agents (state w)) as [| a l IH]; simpl; constructor;
      [| exact IH].
    destruct (strict_eq (Agent.id a) (VStr agentId)) eqn:Heq.
    + split; [reflexivity |]. apply strict_eq_str in Heq. congruence.
    + split; [| reflexivity]. intros Hid.
      apply strict_eq_str in Hid. congruence.
  - intros ->. unfold getStoredPosition, storeAgentPosition.
    by rewrite lookup_insert_eq.
  - by intros ->.
Qed.

(** ** Loading and creating entities *)

Lemma map_from_detached (items : list value) (i : nat) :
  map_from (fun _ a => apiAgentToUIAgent_detached a) i items =
  match items with
  | [] => Ok []
  | _ :: _ => Throw (type_error_read "undefined" "getStoredPosition")
  end.
Proof. by destruct items. Qed.

(** [loadData] never brings an entity into the state.  It always ends
    with [loading] false; either both requests succeeded and the agent
    list received was empty, and then the state holds no entity and no
    error, or the error is set and the entities and relations are the
    previous ones.  In particular a reply with one agent or more ends
    in the error branch, because the converter is handed to [map]
    without its object. *)
Theorem loadData_never_loads_agents
    (first_wins : bool) (agentsReply connectionsReply : fetch_reply)
    (s : AgentOrchestrationState) :
  let s' := loadData first_wins agentsReply connectionsReply s in
  loading s' = false
  /\ connected s' = connected s
  /\ ((error s' = None /\ agents s' = []
       /\ ApiService.listAgents agentsReply = Ok (VArr []))
      \/ (exists msg, error s' = Some msg
                      /\ agents s' = agents s
                      /\ connections s' = connections s)).
Proof.
  cbv zeta. unfold loadData, promise_all.
  assert (Hfail : forall e,
    let s' := {| agents := agents s; connections := connections s;
                 loading := false;
                 error := Some (message_or e "Failed to load data");
                 connected := connected s |} in
    loading s' = false /\ connected s' = connected s
    /\ ((error s' = None /\ agents s' = []
         /\ ApiService.listAgents agentsReply = Ok (VArr []))
        \/ (exists msg, error s' = Some msg /\ agents s' = agents s
                        /\ connections s' = connections s))).
  { intros e. cbn. split; [reflexivity |]. split; [reflexivity |].
    right. eexists. repeat split. }
  destruct (ApiService.listAgents agentsReply) as [agents_v | e1];
    destruct (ApiService.listConnections connectionsReply)
      as [connections_v | e2]; cbn [Js.bind try_catch fst snd];
    try apply Hfail.
  destruct agents_v as [| | | | | items |]; cbn [array_map Js.bind try_catch];
    try apply Hfail.
  unfold map_indexed. rewrite map_from_detached.
  destruct items; cbn [Js.bind try_catch]; [| apply Hfail].
  destruct (array_map _ _ connections_v); cbn [Js.bind try_catch];
    [| apply Hfail].
  cbn. split; [reflexivity |]. split; [reflexivity |]. left. auto.
Qed.

(** The hook's [createAgent] fulfils exactly when the service call
    yields a body and [apiAgentToUIAgent] converts it: it then appends
    that conversion (an unselected entity) at the end of the list and
    fulfils with it.  In every other case, a body that is not an agent
    record included, it leaves the entities as they are, sets the
    error to the message of the failure and rejects with it.
    Relations, flags, the request log and the position store are
    untouched in both cases. *)
Theorem createAgent_outcome (random : position) (reply : fetch_reply)
    (w : HookWorld) :
  let r := createAgent random reply w in
  connections (state r.1) = connections (state w)
  /\ loading (state r.1) = loading (state w)
  /\ connected (state r.1) = connected (state w)
  /\ sent r.1 = sent w
  /\ localStorage r.1 = localStorage w
  /\ match r.2 with
     | Fulfilled newAgent =>
         (exists body,
            ApiService.createAgent reply = Ok body
            /\ apiAgentToUIAgent (localStorage w) random body = Ok newAgent)
         /\ agents (state r.1) = agents (state w) ++ [newAgent]
         /\ Agent.selected newAgent = false
         /\ error (state r.1) = error (state w)
     | Failed e =>
         (ApiService.createAgent reply = Throw e
          \/ exists body,
               ApiService.createAgent reply = Ok body
               /\ apiAgentToUIAgent (localStorage w) random body = Throw e)
         /\ agents (state r.1) = agents (state w)
         /\ error (state r.1) = Some (message_or e "Failed to create agent")
     end.
Proof.
  cbv zeta. unfold createAgent.
  destruct (ApiService.createAgent reply) as [body | e]; simpl.
  - pose proof (apiAgentToUIAgent_cases (localStorage w) random body) as Hspec.
    destruct (apiAgentToUIAgent _ _ body) as [a | e] eqn:Hconv; simpl.
    + do 5 (split; [reflexivity |]).
      split; [by exists body |].
      split; [reflexivity |]. split; [tauto | reflexivity].
    + do 5 (split; [reflexivity |]).
      split; [right; by exists body |]. auto.
  - do 5 (split; [reflexivity |]). split; [by left |]. auto.
Qed.

(** ** More of the connection manager *)

(** The reconnect delay starts at 3000 ms, never decreases from one
    attempt to the next, never exceeds 30000 ms and is 30000 ms from
    the fifth attempt on. *)
Theorem backoff_delay_bounds (attempts : Z) :
  0 <= attempts ->
  3000 <= backoff_delay attempts <= 30000
  /\ backoff_delay attempts <= backoff_delay (attempts + 1)
  /\ backoff_delay 0 = 3000
  /\ (4 <= attempts -> backoff_delay attempts = 30000).
Proof.
  intros Hn. unfold backoff_delay.
  assert (H1 : 0 < 2 ^ attempts) by (apply Z.pow_pos_nonneg; lia).
  assert (H2 : 2 ^ (attempts + 1) = 2 * 2 ^ attempts)
    by (rewrite Z.pow_add_r by lia; change (2 ^ 1) with 2; lia).
  split; [lia |]. split; [lia |]. split; [reflexivity |].
  intros H4.
  assert (2 ^ 4 <= 2 ^ attempts) by (apply Z.pow_le_mono_r; lia).
  change (2 ^ 4) with 16 in *. lia.
Qed.

Lemma backoff_delay_bounds_witness :
  3000 <= backoff_delay 2 <= 30000
  /\ backoff_delay 2 <= backoff_delay (2 + 1)
  /\ backoff_delay 0 = 3000
  /\ (4 <= 2 -> backoff_delay 2 = 30000).
Proof. apply backoff_delay_bounds. lia. Defined.

(** An unexpected close with observers registered and attempts left
    schedules one new timer, for the backoff delay of the current
    attempt count and with the callback the handlers captured, and
    remembers its handle.  The handle is a new one: the timers that
    were pending stay pending.  The counter is not changed and no
    observer is called. *)
Theorem onclose_schedules_reconnect (callback : nat) (s : Service)
    (b : Browser) :
  connectionCleanup s = false ->
  wsCallbacks s <> [] ->
  reconnectAttempts s < maxReconnectAttempts s ->
  let r := ws_onclose callback (s, b) in
  exists t,
    timers b !! t = None
    /\ reconnectTimeout r.1 = Some t
    /\ timers r.2 =
         <[t := Reconnect (backoff_delay (reconnectAttempts s)) callback]>
           (timers b)
    /\ (forall t' a, timers b !! t' = Some a -> timers r.2 !! t' = Some a)
    /\ reconnectAttempts r.1 = reconnectAttempts s
    /\ wsCallbacks r.1 = wsCallbacks s
    /\ isReconnecting r.1 = false
    /\ delivered r.2 = delivered b.
Proof.
  intros Hclean Hcbs Hlt. simpl. rewrite Hclean. simpl.
  destruct (wsCallbacks s) as [| cb cbs] eqn:Hl; [congruence |]. simpl.
  apply Z.ltb_lt in Hlt. rewrite Hlt. simpl.
  exists (fresh (dom (timers b))).
  assert (Hfresh : timers b !! fresh (dom (timers b)) = None).
  { apply not_elem_of_dom, is_fresh. }
  repeat split; auto.
  intros t' a Ha. rewrite lookup_insert_ne; [exact Ha | congruence].
Qed.

Lemma onclose_schedules_reconnect_witness :
  let r := ws_onclose 1%nat (two_observers, open_socket) in
  exists t,
    timers open_socket !! t = None
    /\ reconnectTimeout r.1 = Some t
    /\ timers r.2 =
         <[t := Reconnect (backoff_delay (reconnectAttempts two_observers))
                          1%nat]>
           (timers open_socket)
    /\ (forall t' a, timers open_socket !! t' = Some a ->
                     timers r.2 !! t' = Some a)
    /\ reconnectAttempts r.1 = reconnectAttempts two_observers
    /\ wsCallbacks r.1 = wsCallbacks two_observers
    /\ isReconnecting r.1 = false
    /\ delivered r.2 = delivered open_socket.
Proof.
  apply (onclose_schedules_reconnect 1%nat two_observers open_socket);
    [reflexivity | discriminate | reflexivity].
Defined.

(** An unexpected close schedules nothing when the teardown flag is
    set, when no observer is registered or when the attempts are used
    up; in the last case, and only then, every observer is called once
    with the [connection_failed] event. *)
Theorem onclose_without_retry (callback : nat) (s : Service) (b : Browser) :
  connectionCleanup s = true \/ wsCallbacks s = []
  \/ maxReconnectAttempts s <= reconnectAttempts s ->
  let r := ws_onclose callback (s, b) in
  timers r.2 = timers b
  /\ reconnectTimeout r.1 = reconnectTimeout s
  /\ reconnectAttempts r.1 = reconnectAttempts s
  /\ delivered r.2 =
       delivered b
       ++ (if connectionCleanup s then []
           else List.map (fun cb => (cb, connection_failed)) (wsCallbacks s)).
Proof.
  intros H. simpl.
  destruct (connectionCleanup s) eqn:Hclean; simpl;
    [by rewrite app_nil_r |].
  destruct (wsCallbacks s) as [| cb cbs] eqn:Hl; simpl;
    [by rewrite app_nil_r |].
  destruct H as [H | [H | H]]; try discriminate.
  apply Z.ltb_ge in H. rewrite H. simpl. auto.
Qed.

Lemma onclose_without_retry_witness :
  let s := {| ws := Some 0%nat; wsCallbacks := [1%nat; 2%nat];
              reconnectAttempts := 5; maxReconnectAttempts := 5;
              reconnectTimeout := None; isReconnecting := false;
              connectionCleanup := false; heartbeatInterval := None |} in
  let r := ws_onclose 1%nat (s, open_socket) in
  timers r.2 = timers open_socket
  /\ reconnectTimeout r.1 = reconnectTimeout s
  /\ reconnectAttempts r.1 = reconnectAttempts s
  /\ delivered r.2 =
       delivered open_socket
       ++ (if connectionCleanup s then []
           else List.map (fun cb => (cb, connection_failed)) (wsCallbacks s)).
Proof.
  apply onclose_without_retry. right. right. simpl. lia.
Defined.

Lemma add_callback_elem (callback : nat) (callbacks : list nat) :
  callback ∈ add_callback callback callbacks
  /\ (forall c, c ∈ callbacks -> c ∈ add_callback callback callbacks)
  /\ (NoDup callbacks -> NoDup (add_callback callback callbacks)).
Proof.
  unfold add_callback.
  destruct (existsb (Nat.eqb callback) callbacks) eqn:Hex.
  - split; [| auto]. apply existsb_exists in Hex as (c & Hin & Hc).
    apply Nat.eqb_eq in Hc as ->. by apply list_elem_of_In.
  - split; [set_solver |]. split; [set_solver |].
    intros Hnd. apply NoDup_app. split; [exact Hnd |].
    split; [| apply NoDup_singleton].
    intros c Hc Hc'. apply list_elem_of_singleton in Hc' as ->.
    apply not_true_iff_false in Hex. apply Hex, existsb_exists.
    exists callback. split; [by apply list_elem_of_In | apply Nat.eqb_refl].
Qed.

Lemma add_callback_idem (callback : nat) (callbacks : list nat) :
  add_callback callback (add_callback callback callbacks)
  = add_callback callback callbacks.
Proof.
  unfold add_callback at 2.
  destruct (existsb (Nat.eqb callback) callbacks) eqn:Hex.
  - unfold add_callback. by rewrite Hex.
  - unfold add_callback. rewrite existsb_app. simpl.
    rewrite Nat.eqb_refl. simpl. by rewrite orb_true_r, ?Hex.
Qed.

(** [connectWebSocket] registers the callback, keeps the observers
    already registered and never registers one twice.  When the
    current socket is open or the [isReconnecting] flag is set it
    touches neither the socket nor the browser.  Otherwise it closes
    the current socket, if there is one, and opens a new one; this
    includes a current socket that is still connecting, when the flag
    has been cleared in the meantime by the close or error event of an
    earlier socket.  Calling it a second time with the same callback
    changes nothing. *)
Theorem connectWebSocket_registers_once (callback : nat) (s : Service)
    (b : Browser) :
  let r := connectWebSocket callback (s, b) in
  callback ∈ wsCallbacks r.1
  /\ (forall c, c ∈ wsCallbacks s -> c ∈ wsCallbacks r.1)
  /\ (NoDup (wsCallbacks s) -> NoDup (wsCallbacks r.1))
  /\ (is_open s b = true \/ isReconnecting s = true ->
      r.2 = b /\ ws r.1 = ws s)
  /\ (is_open s b = false -> isReconnecting s = false ->
      exists h, ws r.1 = Some h
                /\ sockets b !! h = None
                /\ sockets r.2 !! h = Some (CONNECTING, callback)
                /\ isReconnecting r.1 = true
                /\ closes r.2 =
                     closes b ++ match ws s with
                                 | Some old => [(old, None)]
                                 | None => []
                                 end)
  /\ connectWebSocket callback r = r.
Proof.
  cbv zeta. unfold connectWebSocket.
  destruct (add_callback_elem callback (wsCallbacks s)) as (Hin & Hkeep & Hnd).
  destruct (is_open s b || isReconnecting s) eqn:Hbusy.
  - cbn [fst snd set_callbacks wsCallbacks ws].
    split; [exact Hin |]. split; [exact Hkeep |]. split; [exact Hnd |].
    split; [auto |]. split.
    { intros H1 H2. rewrite H1, H2 in Hbusy. discriminate. }
    change (is_open (set_callbacks (add_callback callback (wsCallbacks s)) s) b)
      with (is_open s b).
    cbn [isReconnecting set_callbacks]. rewrite Hbusy.
    unfold set_callbacks. cbn. by rewrite add_callback_idem.
  - cbn [fst snd wsCallbacks ws isReconnecting].
    split; [exact Hin |]. split; [exact Hkeep |]. split; [exact Hnd |].
    split.
    + apply orb_false_iff in Hbusy as [H1 H2]. intros [Hx | Hx]; congruence.
    + split.
      * intros _ _. eexists. split; [reflexivity |].
        split; [| split; [apply lookup_insert_eq |]].
        -- apply not_elem_of_dom.
           destruct (ws s) as [old |]; cbn [close_socket sockets];
             [rewrite dom_alter_L |]; apply is_fresh.
        -- split; [reflexivity |].
           destruct (ws s); cbn [close_socket closes];
             [reflexivity | by rewrite app_nil_r].
      * rewrite orb_true_r. unfold set_callbacks. cbn.
        by rewrite add_callback_idem.
Qed.

(** The flag can be clear while a socket is connecting: after a
    teardown and a new subscription, the close event of the socket
    dropped by the teardown clears it (and schedules a reconnect);
    a further [connectWebSocket] then closes the connecting socket 1
    and opens socket 2. *)
Example connect_while_connecting :
  let resubscribed :=
    connectWebSocket 1%nat
      (disconnectWebSocket (connectWebSocket 1%nat (new_service, no_browser))) in
  let stale_close := socket_closed 0%nat resubscribed in
  let again := connectWebSocket 2%nat stale_close in
  ws resubscribed.1 = Some 1%nat
  /\ sockets stale_close.2 !! 1%nat = Some (CONNECTING, 1%nat)
  /\ isReconnecting stale_close.1 = false
  /\ ws again.1 = Some 2%nat
  /\ closes again.2 = [(0%nat, Some (1000, "Deliberate disconnect"));
                       (1%nat, None)].
Proof. vm_compute. repeat split; reflexivity. Qed.

(** Removing an observer while another one stays registered only
    shortens the observer list: the socket, the timers and the counter
    are as before.  Removing the only observer (or any callback when
    none is registered) is the teardown. *)
Theorem removeWebSocketCallback_spec (callback : nat) (s : Service)
    (b : Browser) :
  let r := removeWebSocketCallback callback (s, b) in
  ((exists other, other ∈ wsCallbacks s /\ other <> callback) ->
   r.2 = b
   /\ ws r.1 = ws s
   /\ reconnectTimeout r.1 = reconnectTimeout s
   /\ reconnectAttempts r.1 = reconnectAttempts s
   /\ forall c, c ∈ wsCallbacks r.1 <-> c ∈ wsCallbacks s /\ c <> callback)
  /\ ((forall c, c ∈ wsCallbacks s -> c = callback) ->
      r = disconnectWebSocket (s, b)).
Proof.
  cbv zeta. unfold removeWebSocketCallback.
  cbn [wsCallbacks set_callbacks].
  set (rest := List.filter (fun cb => negb (cb =? callback)%nat)
                           (wsCallbacks s)).
  assert (Hrest : forall c, c ∈ rest <-> c ∈ wsCallbacks s /\ c <> callback).
  { intros c. unfold rest.
    rewrite !list_elem_of_In, filter_In, negb_true_iff, Nat.eqb_neq.
    tauto. }
  split.
  - intros (other & Hin & Hne).
    destruct rest as [| c0 rest'] eqn:Hr.
    + exfalso. pose proof (proj2 (Hrest other) (conj Hin Hne)) as Hx.
      by apply elem_of_nil in Hx.
    + cbn. do 4 (split; [reflexivity |]). exact Hrest.
  - intros Hall.
    destruct rest as [| c0 rest'] eqn:Hr.
    + cbn [length Nat.eqb]. unfold disconnectWebSocket. reflexivity.
    + exfalso. destruct (proj1 (Hrest c0) (list_elem_of_here _ _))
        as [Hin Hne]. auto.
Qed.

Lemma connectWebSocket_idle (callback : nat) (s : Service) (b : Browser) :
  is_open s b = false ->
  isReconnecting s = false ->
  let b1 := match ws s with
            | Some old => close_socket old None b
            | None => b
            end in
  let h := fresh (dom (sockets b1)) in
  connectWebSocket callback (s, b) =
  ({| ws := Some h;
      wsCallbacks := add_callback callback (wsCallbacks s);
      reconnectAttempts := reconnectAttempts s;
      maxReconnectAttempts := maxReconnectAttempts s;
      reconnectTimeout := reconnectTimeout s;
      isReconnecting := true;
      connectionCleanup := connectionCleanup s;
      heartbeatInterval := heartbeatInterval s |},
   {| sockets := <[h := (CONNECTING, callback)]> (sockets b1);
      timers := timers b1; closes := closes b1;
      delivered := delivered b1 |}).
Proof. intros Hopen Hrec. unfold connectWebSocket. by rewrite Hopen, Hrec. Qed.

(** When a pending reconnect timer fires on a service that is neither
    open nor connecting, the attempt counter goes up by one, the timer
    is gone, the captured callback is registered and a new socket is
    connecting.  A timer that was cancelled does nothing. *)
Theorem reconnect_timer_fires (t : positive) (delay : Z) (callback : nat)
    (s : Service) (b : Browser) :
  timers b !! t = Some (Reconnect delay callback) ->
  is_open s b = false ->
  isReconnecting s = false ->
  let r := fire_timer t (s, b) in
  reconnectAttempts r.1 = reconnectAttempts s + 1
  /\ timers r.2 !! t = None
  /\ callback ∈ wsCallbacks r.1
  /\ isReconnecting r.1 = true
  /\ (exists h, ws r.1 = Some h
                /\ sockets b !! h = None
                /\ sockets r.2 !! h = Some (CONNECTING, callback))
  /\ forall sb', timers sb'.2 !! t = None -> fire_timer t sb' = sb'.
Proof.
  intros Ht Hopen Hrec r.
  assert (Hr : r = connectWebSocket callback
                 ({| ws := ws s; wsCallbacks := wsCallbacks s;
                     reconnectAttempts := reconnectAttempts s + 1;
                     maxReconnectAttempts := maxReconnectAttempts s;
                     reconnectTimeout := reconnectTimeout s;
                     isReconnecting := isReconnecting s;
                     connectionCleanup := connectionCleanup s;
                     heartbeatInterval := heartbeatInterval s |},
                  {| sockets := sockets b; timers := delete t (timers b);
                     closes := closes b; delivered := delivered b |})).
  { subst r. unfold fire_timer. by rewrite Ht. }
  rewrite connectWebSocket_idle in Hr by assumption.
  cbv zeta in Hr. cbn [ws wsCallbacks reconnectAttempts maxReconnectAttempts
                       reconnectTimeout connectionCleanup heartbeatInterval
                       sockets] in Hr.
  clearbody r. subst r. cbn [fst snd ws wsCallbacks reconnectAttempts
                             isReconnecting sockets timers].
  destruct (add_callback_elem callback (wsCallbacks s)) as (Hin & _ & _).
  split; [reflexivity |]. split.
  { destruct (ws s); cbn [close_socket timers]; apply lookup_delete_eq. }
  split; [exact Hin |]. split; [reflexivity |]. split.
  { eexists. split; [reflexivity |]. split; [| apply lookup_insert_eq].
    apply not_elem_of_dom.
    destruct (ws s) as [old |]; cbn [close_socket sockets];
      [rewrite dom_alter_L |]; apply is_fresh. }
  intros [s' b'] Hnone. unfold fire_timer. cbn in Hnone. by rewrite Hnone.
Qed.

Lemma reconnect_timer_fires_witness :
  let s := {| ws := Some 0%nat; wsCallbacks := [1%nat];
              reconnectAttempts := 1; maxReconnectAttempts := 5;
              reconnectTimeout := Some 3%positive; isReconnecting := false;
              connectionCleanup := false; heartbeatInterval := None |} in
  let r := fire_timer 3%positive (s, pending_timers) in
  reconnectAttempts r.1 = reconnectAttempts s + 1
  /\ timers r.2 !! 3%positive = None
  /\ 1%nat ∈ wsCallbacks r.1
  /\ isReconnecting r.1 = true
  /\ (exists h, ws r.1 = Some h
                /\ sockets pending_timers !! h = None
                /\ sockets r.2 !! h = Some (CONNECTING, 1%nat))
  /\ forall sb', timers sb'.2 !! 3%positive = None ->
                 fire_timer 3%positive sb' = sb'.
Proof.
  apply (reconnect_timer_fires 3%positive 6000 1%nat); reflexivity.
Defined.

(** A transport error schedules nothing and calls no observer by
    itself, and the close event that follows it has the same outcome
    as a close event alone: an error followed by a close leads to one
    retry, not two. *)
Theorem onerror_then_onclose (callback : nat) (s : Service) (b : Browser) :
  (ws_onerror (s, b)).2 = b
  /\ reconnectTimeout (ws_onerror (s, b)).1 = reconnectTimeout s
  /\ ws_onclose callback (ws_onerror (s, b)) = ws_onclose callback (s, b).
Proof. repeat split. Qed.

(** The close event of the socket dropped by [disconnectWebSocket]
    schedules nothing and calls no observer when it is handled before
    any new subscription.  Handled after a new subscription it finds
    an observer registered and the teardown flag back to false, and
    schedules a reconnect after 3000 ms with the callback of the
    dropped socket, although the socket of the new subscription is
    connecting. *)
Theorem dropped_socket_close_event (callback subscriber : nat) (s : Service)
    (b : Browser) :
  0 < maxReconnectAttempts s ->
  let torn := disconnectWebSocket (s, b) in
  let resubscribed := connectWebSocket subscriber torn in
  let r := ws_onclose callback resubscribed in
  (ws_onclose callback torn).2 = torn.2
  /\ reconnectTimeout (ws_onclose callback torn).1 = None
  /\ (exists h, ws resubscribed.1 = Some h
                /\ sockets resubscribed.2 !! h = Some (CONNECTING, subscriber))
  /\ exists t,
       timers resubscribed.2 !! t = None
       /\ timers r.2 = <[t := Reconnect 3000 callback]> (timers resubscribed.2)
       /\ reconnectTimeout r.1 = Some t
       /\ isReconnecting r.1 = false
       /\ delivered r.2 = delivered resubscribed.2.
Proof.
  intros Hmax. cbv zeta.
  assert (Hlt : (0 <? maxReconnectAttempts s) = true) by by apply Z.ltb_lt.
  unfold disconnectWebSocket, connectWebSocket, is_open.
  cbn [ws isReconnecting orb wsCallbacks add_callback existsb fst snd
       ws_onclose connectionCleanup length Nat.eqb app reconnectAttempts
       maxReconnectAttempts reconnectTimeout timers delivered sockets].
  rewrite Hlt.
  cbn [fst snd timers delivered reconnectTimeout isReconnecting sockets ws].
  split; [reflexivity |]. split; [reflexivity |]. split.
  - eexists. split; [reflexivity | apply lookup_insert_eq].
  - eexists. split; [apply not_elem_of_dom, is_fresh |].
    repeat split.
Qed.

Lemma dropped_socket_close_event_witness :
  let torn := disconnectWebSocket (last_observer, pending_timers) in
  let resubscribed := connectWebSocket 2%nat torn in
  let r := ws_onclose 1%nat resubscribed in
  (ws_onclose 1%nat torn).2 = torn.2
  /\ reconnectTimeout (ws_onclose 1%nat torn).1 = None
  /\ (exists h, ws resubscribed.1 = Some h
                /\ sockets resubscribed.2 !! h = Some (CONNECTING, 2%nat))
  /\ exists t,
       timers resubscribed.2 !! t = None
       /\ timers r.2 = <[t := Reconnect 3000 1%nat]> (timers resubscribed.2)
       /\ reconnectTimeout r.1 = Some t
       /\ isReconnecting r.1 = false
       /\ delivered r.2 = delivered resubscribed.2.
Proof.
  apply (dropped_socket_close_event 1%nat 2%nat last_observer pending_timers).
  reflexivity.
Defined.
